(** * GeoSlop: navigation and session-consistency layer

    A shallow embedding of the orchestration logic of [src/App.tsx]
    (its sibling copy [src/unnamed/part_000] differs in two places, selected
    by [Variant]) and of the retry wrapper and the methods of
    [src/services/geminiService.ts].

    Asynchronous functions are embedded as finite interaction trees
    ([Prog]): synchronous effects ([Call]) are answered at once by the
    world, an [Await] suspends the function until the awaited promise
    settles, and a promise-returning call that is not awaited is a [Spawn].
    A React render closes over a snapshot of the component state; handlers
    therefore take the snapshot [r : App] they were created in, while
    [useRef] cells and functional state updaters act on the live state. *)

From Stdlib Require Import ZArith List String Ascii Bool Lia.
From Stdlib Require Import Floats.SpecFloat.
From Stdlib Require DecimalString DecimalZ DecimalPos.
Import ListNotations.
Local Open Scope string_scope.
Local Open Scope list_scope.
Local Open Scope Z_scope.

Set Implicit Arguments.

(* ===================================================================== *)
(** ** JavaScript values used by the program *)
(* ===================================================================== *)

Module JS.

(** A JS [number] is an IEEE-754 binary64 value. *)
Definition number : Type := spec_float.

Inductive value : Type :=
| VUndefined
| VNull
| VBool (b : bool)
| VNum (n : number)
| VStr (s : string).

(** [isNaN] on a value already known to be a number. *)
Definition isNaN (n : number) : bool :=
  match n with
  | S754_nan => true
  | _ => false
  end.

Definition isFinite (n : number) : bool :=
  match n with
  | S754_zero _ | S754_finite _ _ _ => true
  | S754_infinity _ | S754_nan => false
  end.

Definition of_opt (o : option number) : value :=
  match o with
  | Some n => VNum n
  | None => VUndefined
  end.

(** Thrown values ([catch (error: any)]): [undefined], or an object whose
    [message] is a string when present and whose [status] is an integer
    when present. *)
Inductive error : Type :=
| ErrUndefined
| ErrObj (message : option string) (status : option Z).

Definition TypeError (msg : string) : error := ErrObj (Some msg) None.

(** Outcome of a promise. *)
Inductive settled (X : Type) : Type :=
| Fulfilled (x : X)
| Rejected (e : error).
Arguments Rejected {X} e.

(** [Array.prototype.slice(start, end)]; [end] omitted is [None]. *)
Definition slice {A} (l : list A) (start : Z) (end_ : option Z) : list A :=
  let len := Z.of_nat (List.length l) in
  let norm i := if i <? 0 then Z.max (len + i) 0 else Z.min i len in
  let s := norm start in
  let e := match end_ with Some e => norm e | None => len end in
  firstn (Z.to_nat (e - s)) (skipn (Z.to_nat s) l).

(** [arr[i]] for an integral index. *)
Definition index {A} (l : list A) (i : Z) : option A :=
  if i <? 0 then None else nth_error l (Z.to_nat i).

(** [String.prototype.includes]. *)
Fixpoint includes (hay needle : string) : bool :=
  String.prefix needle hay
  || match hay with
     | EmptyString => false
     | String _ rest => includes rest needle
     end.

(** White space removed by [trim], for the characters a [string] of
    8-bit characters can hold: TAB, LF, VT, FF, CR and SPACE. *)
Definition is_ws (c : ascii) : bool :=
  let n := nat_of_ascii c in
  ((9 <=? n) && (n <=? 13))%nat || (n =? 32)%nat.

Fixpoint trimStart (s : string) : string :=
  match s with
  | String c rest => if is_ws c then trimStart rest else s
  | EmptyString => EmptyString
  end.

Fixpoint trimEnd (s : string) : string :=
  match s with
  | EmptyString => EmptyString
  | String c rest =>
      match trimEnd rest with
      | EmptyString => if is_ws c then EmptyString else String c EmptyString
      | rest' => String c rest'
      end
  end.

Definition trim (s : string) : string := trimEnd (trimStart s).

(** [Number.prototype.toString] on an integer. *)
Definition toString (z : Z) : string :=
  DecimalString.NilZero.string_of_int (Z.to_int z).

(** Truthiness of an optional string ([undefined] and [''] are falsy). *)
Definition truthy_str (o : option string) : bool :=
  match o with
  | Some (String _ _) => true
  | _ => false
  end.

(** [a || b] on an optional string and a string. *)
Definition or_str (a : option string) (b : string) : string :=
  match a with
  | Some (String _ _ as s) => s
  | _ => b
  end.

End JS.

Import JS.

(* ===================================================================== *)
(** ** Async functions as interaction trees *)
(* ===================================================================== *)

Section PROG.

(** [Sy X]: synchronous operations answered by the world with an [X];
    [As X]: awaitable operations settling to an [X]. *)
Variable Sy : Type -> Type.
Variable As : Type -> Type.

Inductive Prog (A : Type) : Type :=
| Ret (a : A)
| Throw (e : error)
| Call (X : Type) (op : Sy X) (k : X -> Prog A)
| Await (X : Type) (op : As X) (k : settled X -> Prog A)
| Spawn (p : Prog unit) (k : Prog A).

Arguments Throw {A} e.

Fixpoint bind {A B : Type} (m : Prog A) (f : A -> Prog B) : Prog B :=
  match m with
  | Ret a => f a
  | Throw e => Throw e
  | Call op k => Call op (fun x => bind (k x) f)
  | Await op k => Await op (fun r => bind (k r) f)
  | Spawn p k => Spawn p (bind k f)
  end.

(** [try { m } catch (e) { h e }].  A spawned (un-awaited) promise is
    outside the reach of the handler. *)
Fixpoint try_catch {A : Type} (m : Prog A) (h : error -> Prog A) : Prog A :=
  match m with
  | Ret a => Ret a
  | Throw e => h e
  | Call op k => Call op (fun x => try_catch (k x) h)
  | Await op k => Await op (fun r => try_catch (k r) h)
  | Spawn p k => Spawn p (try_catch k h)
  end.

(** [try { m } finally { f }]. *)
Fixpoint finally {A : Type} (m : Prog A) (f : Prog unit) : Prog A :=
  match m with
  | Ret a => bind f (fun _ => Ret a)
  | Throw e => bind f (fun _ => Throw e)
  | Call op k => Call op (fun x => finally (k x) f)
  | Await op k => Await op (fun r => finally (k r) f)
  | Spawn p k => Spawn p (finally k f)
  end.

(** [await p] for a promise [p] produced by operation [op]. *)
Definition awaitOp {X} (op : As X) : Prog X :=
  Await op (fun r => match r with
                     | Fulfilled x => Ret x
                     | Rejected e => Throw e
                     end).

Definition callOp {X} (op : Sy X) : Prog X := Call op (fun x => Ret x).

(** What an observer sees: synchronous operations performed and
    awaitable operations dispatched. *)
Inductive Event : Type :=
| EvSync (X : Type) (op : Sy X)
| EvDispatch (X : Type) (op : As X).

Variable World : Type.
Variable handle : forall X, Sy X -> World -> X * World.

(** Result of running a function up to its next suspension point. *)
Record Ran (A : Type) : Type := mkRan {
  residue : Prog A;          (* [Ret], [Throw] or a pending [Await] *)
  world : World;
  trace : list Event;
  spawned : list (Prog unit) (* residues of the promises left un-awaited *)
}.

Fixpoint run {A : Type} (m : Prog A) (w : World) : Ran A :=
  match m with
  | Ret a => mkRan (Ret a) w [] []
  | Throw e => mkRan (Throw e) w [] []
  | Call op k =>
      let (x, w1) := handle op w in
      let r := run (k x) w1 in
      mkRan (residue r) (world r) (EvSync op :: trace r) (spawned r)
  | Await op k => mkRan (Await op k) w [EvDispatch op] []
  | Spawn p k =>
      let rp := run p w in
      let rk := run k (world rp) in
      mkRan (residue rk) (world rk) (trace rp ++ trace rk)
            (spawned rp ++ residue rp :: spawned rk)
  end.

(** Settle the promise a suspended function waits for and run it on. *)
Definition resume {A : Type} (m : Prog A) (ans : forall X, As X -> settled X)
           (w : World) : Ran A :=
  match m with
  | Await op k => run (k (ans _ op)) w
  | _ => mkRan m w [] []
  end.

(** Result of running a function to completion. *)
Record Done (A : Type) : Type := mkDone {
  result : settled A;
  final : World;
  events : list Event;
  awaits : nat               (* number of promises awaited so far *)
}.

(** Run to completion against an oracle: the [n]-th promise awaited is
    settled by [ans n].  A promise left un-awaited runs to its first
    suspension point and stays pending. *)
Fixpoint exec {A : Type} (m : Prog A)
         (ans : nat -> forall X, As X -> settled X)
         (n : nat) (w : World) : Done A :=
  match m with
  | Ret a => mkDone (Fulfilled a) w [] n
  | Throw e => mkDone (Rejected e) w [] n
  | Call op k =>
      let (x, w1) := handle op w in
      let d := exec (k x) ans n w1 in
      mkDone (result d) (final d) (EvSync op :: events d) (awaits d)
  | Await op k =>
      let d := exec (k (ans n _ op)) ans (S n) w in
      mkDone (result d) (final d) (EvDispatch op :: events d) (awaits d)
  | Spawn p k =>
      let rp := run p w in
      let d := exec k ans n (world rp) in
      mkDone (result d) (final d) (trace rp ++ events d) (awaits d)
  end.

End PROG.

Arguments Ret {Sy As A} a.
Arguments Throw {Sy As A} e.
Arguments Call {Sy As A X} op k.
Arguments Await {Sy As A X} op k.
Arguments Spawn {Sy As A} p k.
Arguments EvSync {Sy As X} op.
Arguments EvDispatch {Sy As X} op.
Arguments awaitOp {Sy As X} op.
Arguments callOp {Sy As X} op.

Declare Scope prog_scope.
Delimit Scope prog_scope with prog.
Notation "x <- m ;; k" := (bind m (fun x => k))
  (at level 61, m at next level, right associativity) : prog_scope.
Notation "m ;; k" := (bind m (fun _ => k))
  (at level 61, right associativity) : prog_scope.

(* ===================================================================== *)
(** ** Data model ([src/unnamed/part_001], [src/App.tsx]) *)
(* ===================================================================== *)

Inductive Role : Type := User | Assistant.

Record GroundingSource : Type := {
  gs_title : string;
  gs_uri : string
}.

Record LocationResult : Type := {
  title : string;
  uri : string;
  lr_latitude : option number;
  lr_longitude : option number
}.

Record UserLocation : Type := {
  latitude : number;
  longitude : number
}.

Record Message : Type := {
  id : string;
  role : Role;
  content : string;
  timestamp : Z;
  sources : option (list GroundingSource);
  locationData : option (list LocationResult)
}.

Record VisualLandmark : Type := {
  shortCaption : string;
  richCaption : string;
  imageUrl : option string;
  sourceUri : option string
}.

Record NavLocation : Type := {
  name : string;
  lat : number;
  lng : number
}.

Record GeocodeResponse : Type := {
  g_name : option string;
  g_lat : option number;
  g_lng : option number;
  alternatives : option (list string)
}.

(** Value of [queryLocation]: [{ text, sources, locationData }]. *)
Record QueryResponse : Type := {
  text : string;
  q_sources : list GroundingSource;
  q_locationData : list LocationResult
}.

(** The [useState] cells of [App] that the handlers below touch, and the
    [activeSessionId] ref. *)
Record AppState : Type := mkApp {
  messages : list Message;
  input : string;
  searchQuery : string;
  isLoading : bool;
  isGalleryLoading : bool;
  focalLocation : option UserLocation;
  mapCenter : number * number;
  mapZoom : Z;
  currentLocationName : string;
  markers : list LocationResult;
  galleryImages : list VisualLandmark;
  suggestedQuestions : list string;
  suggestedAlternatives : list string;
  seenHistory : list string;
  navHistory : list NavLocation;
  historyIndex : Z;
  activeSessionId : Z
}.

Definition isValidCoord (val : value) : bool :=
  match val with
  | VNum n => negb (isNaN n)
  | _ => false
  end.

(** Every state update the handlers perform, named after its setter; the
    suffixed ones are the functional updaters [setX(prev => ...)]. *)
Inductive Write : Type :=
| SetMessages_append (m : Message)
| SetMessages_content (target content' : string)
| SetMessages_remove (target : string)
| SetInput (s : string)
| SetSearchQuery (s : string)
| SetIsLoading (b : bool)
| SetIsGalleryLoading (b : bool)
| SetFocalLocation (l : UserLocation)
| SetMapCenter (la lo : number)
| SetMapZoom (z : Z)
| SetCurrentLocationName (s : string)
| SetMarkers (l : list LocationResult)
| SetGalleryImages (l : list VisualLandmark)
| SetSuggestedQuestions (l : list string)
| SetSuggestedQuestions_remove (q : string)
| SetSuggestedQuestions_append (q : string)
| SetSuggestedAlternatives (l : list string)
| SetSeenHistory_push (n : string)
| SetNavHistory (l : list NavLocation)
| SetHistoryIndex (i : Z).

(** [prev.map(m => m.id === target ? { ...m, content } : m)] *)
Definition set_content (target content' : string) (m : Message) : Message :=
  if String.eqb (id m) target
  then {| id := id m; role := role m; content := content';
          timestamp := timestamp m; sources := sources m;
          locationData := locationData m |}
  else m.

Definition apply_write (wr : Write) (s : AppState) : AppState :=
  let '(mkApp ms inp sq il igl fl mc mz cln mk gi qs alt seen nav hi sid) := s in
  match wr with
  | SetMessages_append m =>
      mkApp (ms ++ [m]) inp sq il igl fl mc mz cln mk gi qs alt seen nav hi sid
  | SetMessages_content t c =>
      mkApp (map (set_content t c) ms) inp sq il igl fl mc mz cln mk gi qs alt seen nav hi sid
  | SetMessages_remove t =>
      mkApp (filter (fun m => negb (String.eqb (id m) t)) ms)
            inp sq il igl fl mc mz cln mk gi qs alt seen nav hi sid
  | SetInput x => mkApp ms x sq il igl fl mc mz cln mk gi qs alt seen nav hi sid
  | SetSearchQuery x => mkApp ms inp x il igl fl mc mz cln mk gi qs alt seen nav hi sid
  | SetIsLoading x => mkApp ms inp sq x igl fl mc mz cln mk gi qs alt seen nav hi sid
  | SetIsGalleryLoading x => mkApp ms inp sq il x fl mc mz cln mk gi qs alt seen nav hi sid
  | SetFocalLocation x => mkApp ms inp sq il igl (Some x) mc mz cln mk gi qs alt seen nav hi sid
  | SetMapCenter la lo => mkApp ms inp sq il igl fl (la, lo) mz cln mk gi qs alt seen nav hi sid
  | SetMapZoom x => mkApp ms inp sq il igl fl mc x cln mk gi qs alt seen nav hi sid
  | SetCurrentLocationName x => mkApp ms inp sq il igl fl mc mz x mk gi qs alt seen nav hi sid
  | SetMarkers x => mkApp ms inp sq il igl fl mc mz cln x gi qs alt seen nav hi sid
  | SetGalleryImages x => mkApp ms inp sq il igl fl mc mz cln mk x qs alt seen nav hi sid
  | SetSuggestedQuestions x => mkApp ms inp sq il igl fl mc mz cln mk gi x alt seen nav hi sid
  | SetSuggestedQuestions_remove q =>
      mkApp ms inp sq il igl fl mc mz cln mk gi
            (filter (fun q' => negb (String.eqb q' q)) qs) alt seen nav hi sid
  | SetSuggestedQuestions_append q =>
      mkApp ms inp sq il igl fl mc mz cln mk gi (qs ++ [q]) alt seen nav hi sid
  | SetSuggestedAlternatives x => mkApp ms inp sq il igl fl mc mz cln mk gi qs x seen nav hi sid
  | SetSeenHistory_push n =>
      mkApp ms inp sq il igl fl mc mz cln mk gi qs alt
            (slice seen (-20) None ++ [n]) nav hi sid
  | SetNavHistory x => mkApp ms inp sq il igl fl mc mz cln mk gi qs alt seen x hi sid
  | SetHistoryIndex x => mkApp ms inp sq il igl fl mc mz cln mk gi qs alt seen nav x sid
  end.

Definition set_session (x : Z) (s : AppState) : AppState :=
  let '(mkApp ms inp sq il igl fl mc mz cln mk gi qs alt seen nav hi _) := s in
  mkApp ms inp sq il igl fl mc mz cln mk gi qs alt seen nav hi x.

Inductive Level : Type := Warn | Error.

(** Synchronous operations of the component. *)
Inductive AppOp : Type -> Type :=
| SetState (wr : Write) : AppOp unit
| IncrSession : AppOp Z              (* [++activeSessionId.current] *)
| ReadSession : AppOp Z              (* [activeSessionId.current] *)
| DateNow : AppOp Z                  (* [Date.now()] *)
| ScrollContainerMounted : AppOp bool (* [scrollContainerRef.current] non-null *)
| ScheduleScrollReset : AppOp unit   (* [setTimeout(() => scrollTo(...), 300)] *)
| PreventDefault : AppOp unit        (* [e.preventDefault()] *)
| Console (lvl : Level) (msg : string) : AppOp unit.

(** The asynchronous operations of the AI gateway ([GeminiService]) the
    component awaits, and [Promise.all] over two of them. *)
Inductive Gateway : Type -> Type :=
| Geocode (query : string) : Gateway (option GeocodeResponse)
| ReverseGeocode (la lo : number) : Gateway (option NavLocation)
| GetLocationSummary (placeName : string) : Gateway string
| GetVisualKeywords (placeName : string) (exclude : list string)
    : Gateway (list VisualLandmark)
| GetPertinentQuestions (placeName : string) (count : Z) : Gateway (list string)
| GetSinglePertinentQuestion (placeName : string) (exclude : list string)
    : Gateway (option string)
| GetDynamicCoolLocation (exclude : list string) : Gateway (option NavLocation)
| QueryLocation (prompt : string) (userLocation : option UserLocation)
    : Gateway QueryResponse
| PromiseAll (X Y : Type) (a : Gateway X) (b : Gateway Y) : Gateway (X * Y).

(** The component state, the wall clock, and whether the gallery scroll
    container is mounted. *)
Record World : Type := mkWorld {
  app : AppState;
  clock : Z;
  scrollMounted : bool
}.

Definition handle (X : Type) (op : AppOp X) (w : World) : X * World :=
  match op in AppOp T return T * World with
  | SetState wr => (tt, mkWorld (apply_write wr (app w)) (clock w) (scrollMounted w))
  | IncrSession =>
      let n := activeSessionId (app w) + 1 in
      (n, mkWorld (set_session n (app w)) (clock w) (scrollMounted w))
  | ReadSession => (activeSessionId (app w), w)
  | DateNow => (clock w, w)
  | ScrollContainerMounted => (scrollMounted w, w)
  | ScheduleScrollReset => (tt, w)
  | PreventDefault => (tt, w)
  | Console _ _ => (tt, w)
  end.

Definition P : Type -> Type := Prog AppOp Gateway.
Definition Ev : Type := Event AppOp Gateway.

Definition call {X : Type} (op : AppOp X) : P X := callOp op.
Definition await {X : Type} (op : Gateway X) : P X := awaitOp op.
Definition set (wr : Write) : P unit := call (SetState wr).

Definition runApp {A : Type} (m : P A) (w : World) : Ran AppOp Gateway World A :=
  run handle m w.

Definition resumeApp {A : Type} (m : P A) (ans : forall X, Gateway X -> settled X)
           (w : World) : Ran AppOp Gateway World A :=
  resume handle m ans w.

(* ===================================================================== *)
(** ** The component's functions ([src/App.tsx], [src/unnamed/part_000]) *)
(* ===================================================================== *)

(** The two copies of the component. *)
Inductive Variant : Type := AppTsx | Part000.

Definition nl : string := String (ascii_of_nat 10) EmptyString.

Local Open Scope prog_scope.

Definition assistantMessage (i c : string) (ts : Z) : Message :=
  {| id := i; role := Assistant; content := c; timestamp := ts;
     sources := None; locationData := None |}.

(** [setMessages(prev => [...prev, { id: Date.now().toString(), role:
    'assistant', content, timestamp: Date.now() }])] *)
Definition sayNow (c : string) : P unit :=
  now <- call DateNow ;;
  ts <- call DateNow ;;
  set (SetMessages_append (assistantMessage (toString now) c ts)).

Definition updateGalleryAndQuestions (placeName : string) : P unit :=
  sessionId <- call IncrSession ;;
  set (SetGalleryImages []) ;;
  set (SetIsGalleryLoading true) ;;
  set (SetSuggestedQuestions []) ;;
  finally
    (try_catch
       (res <- await (PromiseAll (GetVisualKeywords placeName [])
                                 (GetPertinentQuestions placeName 4)) ;;
        let landmarks := fst res in
        let questions := snd res in
        cur <- call ReadSession ;;
        if negb (sessionId =? cur) then Ret tt
        else
          set (SetSuggestedQuestions questions) ;;
          set (SetGalleryImages landmarks) ;;
          mounted <- call ScrollContainerMounted ;;
          if mounted then call ScheduleScrollReset else Ret tt)
       (fun _ => call (Console Error "Gallery update failed")))
    (cur <- call ReadSession ;;
     if sessionId =? cur then set (SetIsGalleryLoading false) else Ret tt).

(** [r] is the render whose closure [jumpTo] belongs to: [navHistory] and
    [historyIndex] are read from it. *)
Definition jumpTo (v : Variant) (r : AppState) (name' : string)
           (lat' lng' : number) (isNavigating : bool) : P unit :=
  if negb (isValidCoord (VNum lat')) || negb (isValidCoord (VNum lng')) then
    match v with
    | AppTsx => Ret tt
    | Part000 => call (Console Warn "Attempted warp to invalid coords")
    end
  else
    set (SetCurrentLocationName name') ;;
    set (SetSearchQuery name') ;;
    set (SetSuggestedAlternatives []) ;;
    set (SetMapCenter lat' lng') ;;
    set (SetMapZoom 16) ;;
    set (SetFocalLocation {| latitude := lat'; longitude := lng' |}) ;;
    set (SetGalleryImages []) ;;
    now <- call DateNow ;;
    let warpingId := toString now in
    ts <- call DateNow ;;
    set (SetMessages_append
           (assistantMessage warpingId ("Warping to " ++ name' ++ "...")%string ts)) ;;
    set (SetIsGalleryLoading true) ;;
    Spawn (updateGalleryAndQuestions name')
      (set (SetIsLoading true) ;;
       (if negb isNavigating then
          let newHistory :=
            slice (navHistory r) 0 (Some (historyIndex r + 1))
            ++ [{| name := name'; lat := lat'; lng := lng' |}] in
          set (SetNavHistory newHistory) ;;
          set (SetHistoryIndex (Z.of_nat (List.length newHistory) - 1))
        else Ret tt) ;;
       finally
         (try_catch
            (summary <- await (GetLocationSummary name') ;;
             set (SetMessages_content warpingId
                    ("Warped to " ++ name' ++ "!" ++ nl ++ nl ++ summary)%string))
            (fun _ =>
               set (SetMessages_content warpingId
                      ("Warped to " ++ name' ++ "! Ready to explore.")%string)))
         (set (SetIsLoading false))).

(** [navHistory[i]] followed by the accesses [.name], [.lat], [.lng]. *)
Definition traverseTo (v : Variant) (r : AppState) (i : Z) : P unit :=
  let target := index (navHistory r) i in
  set (SetHistoryIndex i) ;;
  match target with
  | Some p => Spawn (jumpTo v r (name p) (lat p) (lng p) true) (Ret tt)
  | None => Throw (TypeError "Cannot read properties of undefined")
  end.

Definition handleBack (v : Variant) (r : AppState) : P unit :=
  if historyIndex r >? 0 then traverseTo v r (historyIndex r - 1) else Ret tt.

Definition handleForward (v : Variant) (r : AppState) : P unit :=
  if historyIndex r <? Z.of_nat (List.length (navHistory r)) - 1
  then traverseTo v r (historyIndex r + 1)
  else Ret tt.

Definition handleMapClick (v : Variant) (r : AppState) (lat' lng' : number)
  : P unit :=
  if isLoading r || negb (isValidCoord (VNum lat'))
     || negb (isValidCoord (VNum lng'))
  then Ret tt
  else
    set (SetIsLoading true) ;;
    finally
      (try_catch
         (result <- await (ReverseGeocode lat' lng') ;;
          match result with
          | Some res =>
              if isValidCoord (VNum (lat res)) && isValidCoord (VNum (lng res))
              then jumpTo v r (name res) (lat res) (lng res) false
              else Ret tt
          | None => Ret tt
          end)
         (fun _ => call (Console Error "Reverse geocoding failed")))
      (set (SetIsLoading false)).

(** [result && result.name && isValidCoord(result.lat) &&
    isValidCoord(result.lng)], with the three values when it holds. *)
Definition resolved (result : option GeocodeResponse) : option NavLocation :=
  match result with
  | Some {| g_name := Some n; g_lat := Some la; g_lng := Some lo |} =>
      if truthy_str (Some n) && isValidCoord (VNum la) && isValidCoord (VNum lo)
      then Some {| name := n; lat := la; lng := lo |}
      else None
  | _ => None
  end.

(** [result && result.alternatives && result.alternatives.length > 0] *)
Definition offered (result : option GeocodeResponse) : option (list string) :=
  match result with
  | Some {| alternatives := Some (a :: l) |} => Some (a :: l)
  | _ => None
  end.

Definition quote : string := String (ascii_of_nat 34) EmptyString.

Definition handleLocationSearch (v : Variant) (r : AppState) (e : bool)
           (customQuery : option string) : P unit :=
  (if e then call PreventDefault else Ret tt) ;;
  let query := trim (or_str customQuery (searchQuery r)) in
  if negb (truthy_str (Some query)) || isLoading r then Ret tt
  else
    set (SetIsLoading true) ;;
    set (SetSuggestedAlternatives []) ;;
    finally
      (try_catch
         (result <- await (Geocode query) ;;
          match resolved result with
          | Some p => jumpTo v r (name p) (lat p) (lng p) false
          | None =>
              match offered result with
              | Some alts =>
                  set (SetSuggestedAlternatives alts) ;;
                  sayNow ("I couldn't find " ++ quote ++ query ++ quote
                          ++ ". Did you mean one of these?")%string
              | None =>
                  sayNow ("Sorry, I couldn't find " ++ quote ++ query ++ quote
                          ++ ". Try a different city.")%string
              end
          end)
         (fun _ => call (Console Error "Search failed")))
      (set (SetIsLoading false)).

(** [response.locationData] is always an array, hence truthy: the markers
    are always replaced. *)
Definition handleSend (r : AppState) (customInput : option string) : P unit :=
  let queryText := or_str customInput (input r) in
  if negb (truthy_str (Some (trim queryText))) || isLoading r then Ret tt
  else
    now <- call DateNow ;;
    ts <- call DateNow ;;
    set (SetMessages_append
           {| id := toString now; role := User; content := queryText;
              timestamp := ts; sources := None; locationData := None |}) ;;
    (if negb (truthy_str customInput) then set (SetInput "") else Ret tt) ;;
    set (SetIsLoading true) ;;
    finally
      (try_catch
         (response <- await (QueryLocation queryText (focalLocation r)) ;;
          now' <- call DateNow ;;
          ts' <- call DateNow ;;
          set (SetMessages_append
                 {| id := toString (now' + 1); role := Assistant;
                    content := text response; timestamp := ts';
                    sources := Some (q_sources response);
                    locationData := Some (q_locationData response) |}) ;;
          set (SetMarkers (q_locationData response)))
         (fun _ => call (Console Error "Gemini query failed")))
      (set (SetIsLoading false)).

Definition handleFeelingLucky (v : Variant) (r : AppState) : P unit :=
  if isLoading r then Ret tt
  else
    call IncrSession ;;
    set (SetGalleryImages []) ;;
    set (SetSuggestedQuestions []) ;;
    set (SetIsLoading true) ;;
    now <- call DateNow ;;
    let loadingId := toString now in
    ts <- call DateNow ;;
    set (SetMessages_append
           (assistantMessage loadingId
              "Scouring the globe for something unique..." ts)) ;;
    try_catch
      (gem <- await (GetDynamicCoolLocation (seenHistory r)) ;;
       set (SetMessages_remove loadingId) ;;
       let notFound :=
         set (SetIsLoading false) ;;
         sayNow "I couldn't find a new spot right now. Let's try again." in
       match gem with
       | Some g =>
           if isValidCoord (VNum (lat g)) && isValidCoord (VNum (lng g)) then
             set (SetSeenHistory_push (name g)) ;;
             jumpTo v r (name g) (lat g) (lng g) false
           else notFound
       | None => notFound
       end)
      (fun _ =>
         call (Console Error "Failed to fetch dynamic location") ;;
         set (SetIsLoading false) ;;
         match v with
         | AppTsx => Ret tt
         | Part000 => sayNow "Warp coordinates lost. Try searching manually!"
         end).

Definition handleDiscoveryQuestion (r : AppState) (question : string) : P unit :=
  Spawn (handleSend r (Some question))
    (set (SetSuggestedQuestions_remove question) ;;
     try_catch
       (newQuestion <- await (GetSinglePertinentQuestion
                                (currentLocationName r) (suggestedQuestions r)) ;;
        match newQuestion with
        | Some (String _ _ as q) => set (SetSuggestedQuestions_append q)
        | _ => Ret tt
        end)
       (fun _ => call (Console Error "Failed to fetch replacement question"))).

(** Binary64 values of the literals [47.4517] and [-122.4631]. *)
Definition vashonLat : number := S754_finite false 6678233076190518 (-47).
Definition vashonLng : number := S754_finite true 8617574555103684 (-46).

(** The [useState] initial values; [Date.now()] of the first render is
    the clock of the world the component mounts in. *)
Definition initialApp (now : Z) : AppState :=
  {| messages :=
       [assistantMessage "1"
          "Welcome to GeoSlop. I have initiated a swarm capture to gather real-world photos for you. Where shall we go?"
          now];
     input := "";
     searchQuery := "";
     isLoading := false;
     isGalleryLoading := false;
     focalLocation := None;
     mapCenter := (vashonLat, vashonLng);
     mapZoom := 10;
     currentLocationName := "Vashon Island";
     markers := [];
     galleryImages := [];
     suggestedQuestions := [];
     suggestedAlternatives := [];
     seenHistory := ["Vashon Island"; "Petra"];
     navHistory := [{| name := "Vashon Island"; lat := vashonLat; lng := vashonLng |}];
     historyIndex := 0;
     activeSessionId := 0 |}.

(** [useEffect(() => { updateGalleryAndQuestions("Vashon Island") }, [])] *)
Definition onMount : P unit := Spawn (updateGalleryAndQuestions "Vashon Island") (Ret tt).

Local Close Scope prog_scope.

(* ===================================================================== *)
(** ** The AI gateway's retry wrapper ([src/services/geminiService.ts]) *)
(* ===================================================================== *)

Module GeminiService.

Local Open Scope prog_scope.

(** [Math.random() * 3000], as the whole milliseconds the timer adds to
    the integral [baseDelay * 3^attempt]. *)
Inductive SvcOp : Type -> Type :=
| Jitter : SvcOp Z.

(** The values [Math.random() * 3000] will take, in order. *)
Definition Randoms : Type := list Z.

Definition handleSvc (X : Type) (op : SvcOp X) (w : Randoms) : X * Randoms :=
  match op in SvcOp T return T * Randoms with
  | Jitter => (hd 0 w, tl w)
  end.

(** [error?.message?.includes('429') || error?.status === 429] *)
Definition isRateLimited (e : error) : bool :=
  match e with
  | ErrUndefined => false
  | ErrObj message status =>
      match message with Some m => includes m "429" | None => false end
      || match status with Some s => s =? 429 | None => false end
  end.

(** [error?.status >= 500 && error?.status <= 504] *)
Definition isServerError (e : error) : bool :=
  match e with
  | ErrObj _ (Some s) => (s >=? 500) && (s <=? 504)
  | _ => false
  end.

Section WITH_RETRY.

(** The awaitable operations at hand, among them the timer
    [new Promise(resolve => setTimeout(resolve, delay))]. *)
Variable As : Type -> Type.
Variable setTimeout : Z -> As unit.
Variable T : Type.

(** The [for] loop from [attempt] on; [fuel] bounds the iterations
    left, [maxRetries - attempt + 1]. *)
Fixpoint retryLoop (fn : Prog SvcOp As T) (maxRetries baseDelay : Z)
         (fuel : nat) (attempt : Z) (lastError : error)
  : Prog SvcOp As T :=
  match fuel with
  | O => Throw lastError
  | S fuel' =>
      if attempt <=? maxRetries then
        try_catch fn
          (fun error =>
             if (isRateLimited error || isServerError error)
                && (attempt <? maxRetries)
             then
               jitter <- callOp Jitter ;;
               let delay := baseDelay * 3 ^ attempt + jitter in
               Await (setTimeout delay)
                 (fun _ => retryLoop fn maxRetries baseDelay fuel'
                             (attempt + 1) error)
             else Throw error)
      else Throw lastError
  end.

Definition withRetry (fn : Prog SvcOp As T) (maxRetries baseDelay : Z)
  : Prog SvcOp As T :=
  retryLoop fn maxRetries baseDelay (Z.to_nat (maxRetries + 1)) 0
            ErrUndefined.

End WITH_RETRY.








(** The wrapped operation taken as an opaque promise-returning thunk. *)
Inductive RetryEff (T : Type) : Type -> Type :=
| Invoke : RetryEff T T
| Timeout (delay : Z) : RetryEff T unit.
Arguments Invoke {T}.
Arguments Timeout {T} delay.

Definition retrying (T : Type) (maxRetries baseDelay : Z)
  : Prog SvcOp (RetryEff T) T :=
  withRetry Timeout (awaitOp Invoke) maxRetries baseDelay.

Definition execSvc {As : Type -> Type} {A : Type} (m : Prog SvcOp As A)
           (ans : nat -> forall X, As X -> settled X) (n : nat) (w : Randoms)
  : Done SvcOp As Randoms A :=
  exec handleSvc m ans n w.

(** *** Observations on runs of the wrapper *)

Definition retryable (e : error) : bool :=
  isRateLimited e || isServerError e.

Definition smap {X T : Type} (f : X -> T) (r : settled X) : settled T :=
  match r with
  | Fulfilled x => Fulfilled (f x)
  | Rejected e => Rejected e
  end.

(** A wrapped operation that awaits the one promise [op] and returns
    [f] of its value. *)
Definition singleAwait {As : Type -> Type} {X T : Type} (op : As X)
           (f : X -> T) (fn : Prog SvcOp As T) : Prop :=
  forall ans n w,
    execSvc fn ans n w = mkDone (smap f (ans n X op)) w [EvDispatch op] (S n).

(** What a run that retries [k] times does, from [attempt] on: each
    failed invocation is followed by a draw of the jitter and a timer. *)
Fixpoint retryTrace {As : Type -> Type} (setTimeout : Z -> As unit)
         {X : Type} (op : As X) (baseDelay : Z) (k : nat) (attempt : Z)
         (w : Randoms) : list (Event SvcOp As) :=
  match k with
  | O => [EvDispatch op]
  | S k' =>
      EvDispatch op :: EvSync Jitter
        :: EvDispatch (setTimeout (baseDelay * 3 ^ attempt + hd 0 w))
        :: retryTrace setTimeout op baseDelay k' (attempt + 1) (tl w)
  end.

(** Number of times the wrapped operation was invoked. *)
Definition invocations {T : Type} (t : list (Event SvcOp (RetryEff T)))
  : nat :=
  List.length
    (filter (fun e => match e with
                      | EvDispatch op =>
                          match op with
                          | Invoke => true
                          | Timeout _ => false
                          end
                      | EvSync _ => false
                      end) t).

(** The delays of the timers set, in order. *)
Definition timeouts {T : Type} (t : list (Event SvcOp (RetryEff T)))
  : list Z :=
  flat_map (fun e => match e with
                     | EvDispatch op =>
                         match op with
                         | Invoke => []
                         | Timeout d => [d]
                         end
                     | EvSync _ => []
                     end) t.

End GeminiService.

(* ===================================================================== *)
(** ** [handleReturnHome] and [ImageCard] ([src/App.tsx]) *)
(* ===================================================================== *)

(** What [navigator.geolocation] does with the request of
    [handleReturnHome]: the API is absent, or one of the two callbacks is
    invoked. *)
Inductive Geolocation : Type :=
| GeoUnsupported
| GeoPosition (latitude' longitude' : number)
| GeoError.

(** [handleReturnHome], at the moment its outcome is known; [r] is the
    render the button was clicked in. *)
Definition handleReturnHome (v : Variant) (r : AppState) (g : Geolocation)
  : P unit :=
  match g with
  | GeoPosition la lo => Spawn (jumpTo v r "Your Location" la lo false) (Ret tt)
  | GeoError =>
      bind (call (Console Warn "Geolocation failed, returning to Vashon fallback"))
           (fun _ => Spawn (jumpTo v r "Vashon Island" vashonLat vashonLng false)
                           (Ret tt))
  | GeoUnsupported =>
      Spawn (jumpTo v r "Vashon Island" vashonLat vashonLng false) (Ret tt)
  end.









(* ===================================================================== *)
(** ** The gateway's methods ([src/services/geminiService.ts]) *)
(* ===================================================================== *)

Module GeminiMethods.

Import GeminiService.
Local Open Scope prog_scope.

(** [chunk.maps] and [chunk.web], as far as they are read. *)
Record ChunkRef : Type := {
  c_title : string;
  c_uri : string
}.

Record GroundingChunk : Type := {
  maps : option ChunkRef;
  web : option ChunkRef
}.

(** [GenerateContentResponse]: [response.text] and
    [response.candidates?.[0]?.groundingMetadata?.groundingChunks]. *)
Record GenResponse : Type := {
  gr_text : option string;
  gr_chunks : option (list GroundingChunk)
}.

(** The prompts, by the values interpolated into their fixed wording. *)
Inductive Prompt : Type :=
| GeocodePrompt (query : string)
| ReverseGeocodePrompt (la lo : number)
| VisualPrompt (placeName exclusionPrompt : string)
| QuestionsPrompt (count : Z) (placeName : string)
| SingleQuestionPrompt (placeName excluded : string)
| CoolLocationPrompt (exclusionText : string)
| FreeForm (prompt : string).

(** The [config] of a request: none; a JSON response schema, with or
    without the [googleSearch] tool; or the maps and search tools with an
    optional [toolConfig.retrievalConfig.latLng]. *)
Inductive Config : Type :=
| Plain
| JsonSchema (googleSearch : bool)
| Grounded (latLng : option UserLocation).

Inductive Genai : Type -> Type :=
| Generate (model : string) (contents : Prompt) (config : Config)
    : Genai GenResponse
| Sleep (delay : Z) : Genai unit.

Definition flash : string := "gemini-3-flash-preview".

(** [exclude.join(', ')] *)
Definition join (l : list string) : string := String.concat ", " l.

(** [Array.from(new Set(l))]: the elements in order of first occurrence. *)
Definition dedupe (l : list string) : list string :=
  fold_left (fun acc x => if existsb (String.eqb x) acc then acc
                          else acc ++ [x]) l [].

Definition forbidden : list string :=
  ["Petra"; "Grand Canyon"; "Eiffel Tower"; "Machu Picchu"; "Pyramids of Giza";
   "Great Wall of China"; "Statue of Liberty"; "Sydney Opera House";
   "Vatican City"].

Definition allExclude (exclude : list string) : list string :=
  dedupe (exclude ++ forbidden).

Definition exclusionText (exclude : list string) : string :=
  match allExclude exclude with
  | [] => ""
  | l => (" STRICTLY FORBIDDEN locations: " ++ join l ++ ".")%string
  end.

Definition exclusionPrompt (exclude : list string) : string :=
  match exclude with
  | [] => ""
  | _ => (" Do NOT include any of these: " ++ join exclude ++ ".")%string
  end.

(** The landmark returned when the photo search fails. *)
Definition placeholderLandmark : VisualLandmark :=
  {| shortCaption := "Explore the City";
     richCaption := "The vibrant pulse of the streets comes alive under the golden hour sun.";
     imageUrl := Some "https://images.unsplash.com/photo-1477959858617-67f85cf4f1df?auto=format&fit=crop&w=800&q=80";
     sourceUri := Some "https://unsplash.com" |}.

Definition fallbackQuestions : list string :=
  ["Tell me a secret about this place."; "What's the oldest building here?"].

(** The [forEach] over the grounding chunks of [queryLocation]: a maps
    chunk goes to both lists, a web chunk to the sources only. *)
Definition collectChunks (chunks : list GroundingChunk)
  : list GroundingSource * list LocationResult :=
  fold_left
    (fun acc chunk =>
       let '(srcs, locs) := acc in
       match maps chunk, web chunk with
       | Some m, _ =>
           (srcs ++ [{| gs_title := c_title m; gs_uri := c_uri m |}],
            locs ++ [{| title := c_title m; uri := c_uri m;
                        lr_latitude := None; lr_longitude := None |}])
       | None, Some w =>
           (srcs ++ [{| gs_title := c_title w; gs_uri := c_uri w |}], locs)
       | None, None => (srcs, locs)
       end)
    chunks ([], []).

(** The value [queryLocation] builds from a response. *)
Definition answerOf (response : GenResponse) : QueryResponse :=
  let chunks := match gr_chunks response with Some l => l | None => [] end in
  let '(srcs, locs) := collectChunks chunks in
  {| text := or_str (gr_text response) "I couldn't find any information.";
     q_sources := srcs; q_locationData := locs |}.

(** Synchronous operations of a method that also logs. *)
Inductive SvcLog : Type -> Type :=
| Draw : SvcLog Z
| ConsoleError (msg : string) : SvcLog unit.

Definition handleLog (X : Type) (op : SvcLog X) (w : Randoms) : X * Randoms :=
  match op in SvcLog T return T * Randoms with
  | Draw => handleSvc Jitter w
  | ConsoleError _ => (tt, w)
  end.

Definition logging (X : Type) (op : SvcOp X) : SvcLog X :=
  match op in SvcOp T return SvcLog T with
  | Jitter => Draw
  end.

(** The same function over a larger set of synchronous operations. *)
Fixpoint relabel {Sy Sy' As : Type -> Type} {A : Type}
         (f : forall X, Sy X -> Sy' X) (m : Prog Sy As A) : Prog Sy' As A :=
  match m with
  | Ret a => Ret a
  | Throw e => Throw e
  | Call op k => Call (f _ op) (fun x => relabel f (k x))
  | Await op k => Await op (fun r => relabel f (k r))
  | Spawn p k => Spawn (relabel f p) (relabel f k)
  end.

Section JSON.

(** [JSON.parse], whose result is used at the type the method declares;
    it throws on text that is not JSON. *)
Variable parse : forall T : Type, string -> settled T.

Definition parseJSON {Sy : Type -> Type} {T : Type} (s : string)
  : Prog Sy Genai T :=
  match parse T s with
  | Fulfilled x => Ret x
  | Rejected e => Throw e
  end.

Definition geocode (query : string)
  : Prog SvcOp Genai (option GeocodeResponse) :=
  try_catch
    (withRetry Sleep
       (response <- awaitOp (Generate flash (GeocodePrompt query)
                               (JsonSchema false)) ;;
        parseJSON (or_str (gr_text response) "null"))
       4 3000)
    (fun _ => Ret None).

Definition reverseGeocode (la lo : number)
  : Prog SvcOp Genai (option NavLocation) :=
  try_catch
    (withRetry Sleep
       (response <- awaitOp (Generate flash (ReverseGeocodePrompt la lo)
                               (JsonSchema false)) ;;
        parseJSON (or_str (gr_text response) "null"))
       4 3000)
    (fun _ => Ret None).

Definition getVisualKeywords (placeName : string) (exclude : list string)
  : Prog SvcLog Genai (list VisualLandmark) :=
  try_catch
    (relabel logging
       (withRetry Sleep
          (response <- awaitOp (Generate flash
                                  (VisualPrompt placeName (exclusionPrompt exclude))
                                  (JsonSchema true)) ;;
           parseJSON (or_str (gr_text response) "[]"))
          4 3000))
    (fun _ =>
       callOp (ConsoleError "Failed to gather web photos") ;;
       Ret [placeholderLandmark]).

Definition getPertinentQuestions (placeName : string) (count : Z)
  : Prog SvcOp Genai (list string) :=
  try_catch
    (withRetry Sleep
       (response <- awaitOp (Generate flash (QuestionsPrompt count placeName)
                               (JsonSchema false)) ;;
        parseJSON (or_str (gr_text response) "[]"))
       4 3000)
    (fun _ => Ret fallbackQuestions).

Definition getDynamicCoolLocation (exclude : list string)
  : Prog SvcOp Genai (option NavLocation) :=
  try_catch
    (withRetry Sleep
       (response <- awaitOp (Generate flash
                               (CoolLocationPrompt (exclusionText exclude))
                               (JsonSchema false)) ;;
        parseJSON (or_str (gr_text response) "null"))
       4 3000)
    (fun _ => Ret None).

End JSON.



Definition queryLocation (prompt : string) (userLocation : option UserLocation)
  : Prog SvcOp Genai QueryResponse :=
  try_catch
    (withRetry Sleep
       (response <- awaitOp (Generate "gemini-2.5-flash" (FreeForm prompt)
                               (Grounded userLocation)) ;;
        Ret (answerOf response))
       4 3000)
    (fun error => Throw error).

(** *** Observations *)

Definition sbind {X T : Type} (f : X -> settled T) (r : settled X)
  : settled T :=
  match r with
  | Fulfilled x => f x
  | Rejected e => Rejected e
  end.

(** A wrapped operation that awaits the one promise [op] and then returns
    or throws what [f] makes of its value. *)
Definition awaitsOnce {As : Type -> Type} {X T : Type} (op : As X)
           (f : X -> settled T) (fn : Prog SvcOp As T) : Prop :=
  forall ans n w,
    execSvc fn ans n w = mkDone (sbind f (ans n X op)) w [EvDispatch op] (S n).

(** The value a lookup resolves to: that of the deciding attempt, or the
    fallback when that attempt failed. *)
Definition orElse {T : Type} (fallback : T) (r : settled T) : T :=
  match r with
  | Fulfilled x => x
  | Rejected _ => fallback
  end.

(** Sum of the delays of a run. *)
Definition totalWait {T : Type} (t : list (Event SvcOp (RetryEff T))) : Z :=
  fold_right Z.add 0 (timeouts t).

(** The text handed to [JSON.parse]: [response.text || fallbackText]. *)
Definition jsonOf (fallbackText : string) (resp : GenResponse) : string :=
  or_str (gr_text resp) fallbackText.

Definition sourceOfRef (c : ChunkRef) : GroundingSource :=
  {| gs_title := c_title c; gs_uri := c_uri c |}.

Definition locationOfRef (c : ChunkRef) : LocationResult :=
  {| title := c_title c; uri := c_uri c;
     lr_latitude := None; lr_longitude := None |}.

(** A service on which every request fails with [e]. *)
Definition genaiDown (e : error) (n : nat) (X : Type) (op : Genai X)
  : settled X :=
  match op in Genai R return settled R with
  | Generate _ _ _ => Rejected e
  | Sleep _ => Fulfilled tt
  end.

(** A [JSON.parse] that rejects every text. *)
Definition noParse (T : Type) (s : string) : settled T :=
  Rejected (ErrObj (Some "SyntaxError") None).

Arguments genaiDown e n X op : clear implicits.

End GeminiMethods.

(* ===================================================================== *)
(** ** Observations on runs *)
(* ===================================================================== *)

(** A state mutation: a [useState] setter or a bump of the session ref. *)
Definition isWrite (e : Ev) : bool :=
  match e with
  | EvSync op =>
      match op with
      | SetState _ => true
      | IncrSession => true
      | _ => false
      end
  | EvDispatch _ => false
  end.

(** A call to the AI gateway. *)
Definition isDispatch (e : Ev) : bool :=
  match e with
  | EvDispatch _ => true
  | EvSync _ => false
  end.

Definition quiet (t : list Ev) : bool :=
  forallb (fun e => negb (isWrite e || isDispatch e)) t.

(** The function returned at its first statement(s): nothing written,
    nothing dispatched, nothing left pending. *)
Definition returnsAtOnce (m : P unit) (w : World) : Prop :=
  let ran := runApp m w in
  world ran = w /\ residue ran = Ret tt /\ spawned ran = []
  /\ quiet (trace ran) = true.

(** The navigation-history invariant. *)
Definition nav_inv (s : AppState) : Prop :=
  0 <= historyIndex s < Z.of_nat (List.length (navHistory s)).

Definition sameNav (s s' : AppState) : Prop :=
  navHistory s' = navHistory s /\ historyIndex s' = historyIndex s.

(** A two-entry history with the busy flag set and the cursor at [i]. *)
Definition busyAt (i : Z) : AppState :=
  let '(mkApp ms inp sq _ igl fl mc mz cln mk gi qs alt seen nav _ sid) :=
    initialApp 0 in
  mkApp ms inp sq true igl fl mc mz cln mk gi qs alt seen
        (nav ++ [{| name := "Petra"; lat := S754_zero false;
                    lng := S754_zero false |}]) i sid.

(** Whatever settles the promise a pending function waits for, running
    it on leaves the navigation history and its cursor alone. *)
Definition navStable (t : P unit) : Prop :=
  forall ans w', sameNav (app w') (app (world (resumeApp t ans w'))).

(** The world a fresh session starts in. *)
Definition w0 : World := mkWorld (initialApp 0) 0 true.

(** The promise [updateGalleryAndQuestions] awaits. *)
Definition refreshOp (place : string)
  : Gateway (list VisualLandmark * list string) :=
  PromiseAll (GetVisualKeywords place []) (GetPertinentQuestions place 4).

(** Number of calls [setIsLoading(b)] in a trace. *)
Definition countLoading (b : bool) (t : list Ev) : nat :=
  List.length
    (filter (fun e => match e with
                      | EvSync op =>
                          match op with
                          | SetState (SetIsLoading b') => Bool.eqb b b'
                          | _ => false
                          end
                      | EvDispatch _ => false
                      end) t).




Definition origin : number := S754_zero false.

(** A gateway whose random-location lookup finds [g] and whose summaries
    succeed; everything else fails. *)
Definition luckyGateway (g : NavLocation) (X : Type) (op : Gateway X)
  : settled X :=
  match op in Gateway T return settled T with
  | GetDynamicCoolLocation _ => Fulfilled (Some g)
  | GetLocationSummary p => Fulfilled ("About " ++ p)%string
  | _ => Rejected ErrUndefined
  end.

(** One successful use of the random-location button: the click, the
    lookup settling with the place named [n], the summary settling. *)
Definition luckyRound (v : Variant) (w : World) (n : string) : World :=
  let gw := luckyGateway {| name := n; lat := origin; lng := origin |} in
  let click := runApp (handleFeelingLucky v (app w)) w in
  let found := resumeApp (residue click) gw (world click) in
  let told := resumeApp (residue found) gw (world found) in
  world told.

Definition placeNames (first count : nat) : list string :=
  map (fun i => ("Place " ++ toString (Z.of_nat i))%string) (seq first count).

(** A gateway whose summaries are [s]; everything else fails. *)
Definition summaryGateway (s : string) (X : Type) (op : Gateway X)
  : settled X :=
  match op in Gateway T return settled T with
  | GetLocationSummary _ => Fulfilled s
  | _ => Rejected ErrUndefined
  end.

(** *** Observations on the rest of the component *)



Definition isScrollReset (e : Ev) : bool :=
  match e with
  | EvSync op => match op with ScheduleScrollReset => true | _ => false end
  | EvDispatch _ => false
  end.



Definition luckyNotice : string :=
  "I couldn't find a new spot right now. Let's try again.".

Definition validEntry (p : NavLocation) : bool :=
  isValidCoord (VNum (lat p)) && isValidCoord (VNum (lng p)).

(** Every entry has coordinates that pass [isValidCoord], and the entry
    under the cursor is the place the map shows. *)
Definition viewInv (s : AppState) : Prop :=
  Forall (fun p => validEntry p = true) (navHistory s)
  /\ index (navHistory s) (historyIndex s)
     = Some {| name := currentLocationName s;
               lat := fst (mapCenter s); lng := snd (mapCenter s) |}.

Definition sameView (s s' : AppState) : Prop :=
  navHistory s' = navHistory s /\ historyIndex s' = historyIndex s
  /\ currentLocationName s' = currentLocationName s
  /\ mapCenter s' = mapCenter s.

Definition viewStable (t : P unit) : Prop :=
  forall ans w', sameView (app w') (app (world (resumeApp t ans w'))).


(** [markers.map((loc, idx) => isValidCoord(loc.latitude) &&
    isValidCoord(loc.longitude) ? <Marker .../> : null)] *)
Definition visibleMarkers (l : list LocationResult) : list LocationResult :=
  filter (fun loc => isValidCoord (of_opt (lr_latitude loc))
                     && isValidCoord (of_opt (lr_longitude loc))) l.

(* ===================================================================== *)
(** ** Properties *)
(* ===================================================================== *)

Unset Implicit Arguments.

Arguments toString : simpl never.
Arguments slice : simpl never.
Arguments trim : simpl never.
Arguments String.append : simpl never.

Ltac open_world w :=
  let s := fresh "s" in
  destruct w as [s ? ?]; destruct s.

(** Evaluate a run, splitting on every branch condition met. *)
Ltac crunch :=
  cbn; repeat (match goal with
               | |- context [if ?b then _ else _] => destruct b eqn:?
               end; cbn).

(** Settle the awaited promise either way and evaluate the continuation. *)
Ltac settle ans w' :=
  unfold resumeApp, resume;
  destruct (ans _ _) as [?|?]; open_world w'; crunch.

Lemma isValidCoord_nan (n : number) :
  isNaN n = true -> isValidCoord (VNum n) = false.
Proof. intros H; simpl; now rewrite H. Qed.

(** C2 (as amended): a coordinate that is NaN makes [jumpTo] return at
    its guard: the world is unchanged, nothing is dispatched, nothing is
    left pending. *)
Theorem jumpTo_rejects_nan (v : Variant) (r : AppState) (n : string)
        (la lo : number) (isNavigating : bool) (w : World) :
  isNaN la = true \/ isNaN lo = true ->
  returnsAtOnce (jumpTo v r n la lo isNavigating) w.
Proof.
  intros H. unfold returnsAtOnce, jumpTo.
  assert (G : negb (isValidCoord (VNum la)) || negb (isValidCoord (VNum lo)) = true).
  { destruct H as [H | H]; rewrite (isValidCoord_nan _ H); simpl;
      [reflexivity | apply orb_true_r]. }
  rewrite G. destruct v; cbn; auto.
Qed.

Lemma jumpTo_rejects_nan_witness :
  returnsAtOnce
    (jumpTo Part000 (initialApp 0) "Nowhere" S754_nan (S754_zero false) false)
    (mkWorld (initialApp 0) 0 true).
Proof. apply jumpTo_rejects_nan. left. reflexivity. Defined.

(** C2 (as stated) fails: [+Infinity] is not finite, yet it passes
    [isValidCoord]; [jumpTo] recentres the map on it, appends to the
    transcript and to the navigation history, and dispatches fetches. *)
Lemma jumpTo_accepts_infinity :
  let w := mkWorld (initialApp 0) 0 true in
  let ran := runApp (jumpTo AppTsx (app w) "Edge" (S754_infinity false)
                            (S754_zero false) false) w in
  isFinite (S754_infinity false) = false
  /\ ~ returnsAtOnce (jumpTo AppTsx (app w) "Edge" (S754_infinity false)
                             (S754_zero false) false) w
  /\ mapCenter (app (world ran)) = (S754_infinity false, S754_zero false)
  /\ mapZoom (app (world ran)) = 16
  /\ List.length (messages (app (world ran))) = 2%nat
  /\ List.length (navHistory (app (world ran))) = 2%nat
  /\ historyIndex (app (world ran)) = 1
  /\ existsb isDispatch (trace ran) = true.
Proof.
  cbv zeta. split; [reflexivity|]. split.
  - intros (_ & _ & _ & Q). vm_compute in Q. discriminate Q.
  - vm_compute. repeat split; reflexivity.
Qed.

(** C10: with the busy flag set in the render a handler belongs to, each
    of [handleLocationSearch], [handleMapClick], [handleSend] and
    [handleFeelingLucky] returns at its guard, leaving the world as it was
    and dispatching nothing; [handleBack] and [handleForward] do not look
    at the flag and still move the cursor and start a transition. *)
Theorem busy_guard (v : Variant) (r : AppState) (w : World) :
  isLoading r = true ->
  (forall e customQuery, returnsAtOnce (handleLocationSearch v r e customQuery) w)
  /\ (forall la lo, returnsAtOnce (handleMapClick v r la lo) w)
  /\ (forall customInput, returnsAtOnce (handleSend r customInput) w)
  /\ returnsAtOnce (handleFeelingLucky v r) w
  /\ (exists r' w',
         isLoading r' = true /\ r' = app w'
         /\ ~ returnsAtOnce (handleBack v r') w'
         /\ historyIndex (app (world (runApp (handleBack v r') w')))
            = historyIndex r' - 1
         /\ existsb isDispatch (trace (runApp (handleBack v r') w')) = true)
  /\ (exists r' w',
         isLoading r' = true /\ r' = app w'
         /\ ~ returnsAtOnce (handleForward v r') w'
         /\ historyIndex (app (world (runApp (handleForward v r') w')))
            = historyIndex r' + 1
         /\ existsb isDispatch (trace (runApp (handleForward v r') w')) = true).
Proof.
  intros B.
  split; [|split; [|split; [|split; [|split]]]].
  - intros e customQuery. unfold returnsAtOnce, runApp, handleLocationSearch.
    rewrite B, orb_true_r. destruct e; repeat split; reflexivity.
  - intros la lo. unfold returnsAtOnce, runApp, handleMapClick.
    rewrite B. repeat split; reflexivity.
  - intros customInput. unfold returnsAtOnce, runApp, handleSend.
    rewrite B, orb_true_r. repeat split; reflexivity.
  - unfold returnsAtOnce, runApp, handleFeelingLucky.
    rewrite B. repeat split; reflexivity.
  - exists (busyAt 1), (mkWorld (busyAt 1) 0 true).
    split; [reflexivity|]. split; [reflexivity|]. split.
    + intros (_ & _ & _ & Q). destruct v; vm_compute in Q; discriminate Q.
    + destruct v; vm_compute; split; reflexivity.
  - exists (busyAt 0), (mkWorld (busyAt 0) 0 true).
    split; [reflexivity|]. split; [reflexivity|]. split.
    + intros (_ & _ & _ & Q). destruct v; vm_compute in Q; discriminate Q.
    + destruct v; vm_compute; split; reflexivity.
Qed.

Lemma busy_guard_witness :
  returnsAtOnce (handleFeelingLucky AppTsx (busyAt 0))
                (mkWorld (busyAt 0) 0 true).
Proof.
  apply (busy_guard AppTsx (busyAt 0) (mkWorld (busyAt 0) 0 true)).
  reflexivity.
Defined.

(* --------------------------------------------------------------------- *)
(** *** Navigation history *)

Lemma slice_prefix {A} (l : list A) (i : Z) :
  0 <= i -> slice l 0 (Some (i + 1)) = firstn (S (Z.to_nat i)) l.
Proof.
  intros Hi. unfold slice. cbv zeta beta.
  replace (0 <? 0) with false by reflexivity.
  destruct (i + 1 <? 0) eqn:E; [apply Z.ltb_lt in E; lia|].
  rewrite (Z.min_l 0) by lia. cbn [Z.to_nat skipn].
  rewrite Z.sub_0_r.
  destruct (Z.le_ge_cases (i + 1) (Z.of_nat (List.length l))) as [L | L].
  - rewrite Z.min_l by lia. f_equal. lia.
  - rewrite Z.min_r by lia. rewrite Nat2Z.id.
    rewrite !firstn_all2; auto; lia.
Qed.

Lemma index_last {A} (l : list A) (x : A) :
  index (l ++ [x]) (Z.of_nat (List.length (l ++ [x])) - 1) = Some x.
Proof.
  unfold index. rewrite length_app. cbn [List.length].
  destruct (_ <? 0) eqn:E; [apply Z.ltb_lt in E; lia|].
  replace (Z.to_nat _) with (List.length l) by lia.
  rewrite nth_error_app2 by lia. now rewrite Nat.sub_diag.
Qed.

Lemma navStable_gallery (place : string) (w : World) :
  navStable (residue (runApp (updateGalleryAndQuestions place) w)).
Proof.
  open_world w. cbn. intros ans w'. settle ans w'; split; reflexivity.
Qed.

Lemma jumpTo_fresh v r n la lo w :
  isValidCoord (VNum la) = true -> isValidCoord (VNum lo) = true ->
  let j := runApp (jumpTo v r n la lo false) w in
  let newHistory := slice (navHistory r) 0 (Some (historyIndex r + 1))
                    ++ [{| name := n; lat := la; lng := lo |}] in
  navHistory (app (world j)) = newHistory
  /\ historyIndex (app (world j)) = Z.of_nat (List.length newHistory) - 1.
Proof.
  intros Ha Ho. unfold jumpTo. rewrite Ha, Ho. open_world w. cbn. auto.
Qed.

Lemma jumpTo_traversal v r n la lo w :
  sameNav (app w) (app (world (runApp (jumpTo v r n la lo true) w))).
Proof.
  unfold jumpTo. open_world w. destruct v; crunch; split; reflexivity.
Qed.

Lemma jumpTo_invalid v r n la lo nav w :
  isValidCoord (VNum la) && isValidCoord (VNum lo) = false ->
  sameNav (app w) (app (world (runApp (jumpTo v r n la lo nav) w))).
Proof.
  intros H. unfold jumpTo.
  rewrite <- negb_andb, H. destruct v; split; reflexivity.
Qed.

Lemma jumpTo_pending_navStable v r n la lo nav w :
  let j := runApp (jumpTo v r n la lo nav) w in
  navStable (residue j) /\ Forall navStable (spawned j).
Proof.
  unfold jumpTo. destruct (negb _ || negb _).
  - destruct v; cbn; (split; [intros ans w'; split; reflexivity | constructor]).
  - open_world w. destruct nav; cbn; split.
    + intros ans w'. settle ans w'; split; reflexivity.
    + apply Forall_cons; [|apply Forall_nil].
      intros ans w'. settle ans w'; split; reflexivity.
    + intros ans w'. settle ans w'; split; reflexivity.
    + apply Forall_cons; [|apply Forall_nil].
      intros ans w'. settle ans w'; split; reflexivity.
Qed.

Lemma traverse_nav v w i :
  0 <= i < Z.of_nat (List.length (navHistory (app w))) ->
  let b := runApp (traverseTo v (app w) i) w in
  nav_inv (app (world b))
  /\ navHistory (app (world b)) = navHistory (app w)
  /\ historyIndex (app (world b)) = i
  /\ Forall navStable (spawned b).
Proof.
  intros Hi. cbv zeta. unfold traverseTo.
  destruct (index _ _) as [p|] eqn:L.
  - pose proof (jumpTo_traversal v (app w) (name p) (lat p) (lng p)) as T.
    pose proof (jumpTo_pending_navStable v (app w) (name p) (lat p) (lng p) true) as S.
    unfold nav_inv. open_world w. cbn in Hi. cbn.
    match goal with
    | |- context [run handle (jumpTo _ _ _ _ _ true) ?w1] =>
        destruct (T w1) as [T1 T2]; destruct (S w1) as [S1 S2]
    end.
    unfold runApp in *. cbn in T1, T2. rewrite T1, T2.
    repeat split; auto; try lia.
    apply Forall_app. split; auto.
  - unfold nav_inv. open_world w. cbn in Hi. cbn.
    repeat split; auto; try lia.
Qed.

Lemma handleBack_nav (v : Variant) (w : World) :
  nav_inv (app w) ->
  let b := runApp (handleBack v (app w)) w in
  nav_inv (app (world b))
  /\ navHistory (app (world b)) = navHistory (app w)
  /\ historyIndex (app (world b))
     = (if historyIndex (app w) >? 0 then historyIndex (app w) - 1
        else historyIndex (app w))
  /\ Forall navStable (spawned b).
Proof.
  intros I. cbv zeta. unfold handleBack.
  destruct (historyIndex (app w) >? 0) eqn:G.
  - apply Z.gtb_lt in G. apply traverse_nav. unfold nav_inv in I. lia.
  - unfold nav_inv in *. cbn. repeat split; try constructor; lia.
Qed.

Lemma handleForward_nav (v : Variant) (w : World) :
  nav_inv (app w) ->
  let f := runApp (handleForward v (app w)) w in
  nav_inv (app (world f))
  /\ navHistory (app (world f)) = navHistory (app w)
  /\ historyIndex (app (world f))
     = (if historyIndex (app w)
           <? Z.of_nat (List.length (navHistory (app w))) - 1
        then historyIndex (app w) + 1
        else historyIndex (app w))
  /\ Forall navStable (spawned f).
Proof.
  intros I. cbv zeta. unfold handleForward.
  destruct (historyIndex (app w) <? _) eqn:G.
  - apply Z.ltb_lt in G. apply traverse_nav. unfold nav_inv in I. lia.
  - unfold nav_inv in *. cbn. repeat split; try constructor; lia.
Qed.

(** C4: the initial state satisfies [0 <= historyIndex <
    navHistory.length]; from a state satisfying it, [handleBack],
    [handleForward] and [jumpTo] (from any render, with any arguments)
    lead to a state satisfying it, and so does the completion of whatever
    they leave pending.  Back and forward leave the entries
    alone and move the cursor by one exactly when it is not at the
    respective end; a fresh [jumpTo] with valid coordinates makes the
    cursor the index of the entry it appended last. *)
Theorem nav_invariant (v : Variant) (w : World) :
  nav_inv (app w) ->
  (let b := runApp (handleBack v (app w)) w in
   nav_inv (app (world b))
   /\ navHistory (app (world b)) = navHistory (app w)
   /\ historyIndex (app (world b))
      = (if historyIndex (app w) >? 0 then historyIndex (app w) - 1
         else historyIndex (app w))
   /\ Forall navStable (spawned b))
  /\ (let f := runApp (handleForward v (app w)) w in
      nav_inv (app (world f))
      /\ navHistory (app (world f)) = navHistory (app w)
      /\ historyIndex (app (world f))
         = (if historyIndex (app w)
               <? Z.of_nat (List.length (navHistory (app w))) - 1
            then historyIndex (app w) + 1
            else historyIndex (app w))
      /\ Forall navStable (spawned f))
  /\ (forall r n la lo isNavigating,
        let j := runApp (jumpTo v r n la lo isNavigating) w in
        let entry := {| name := n; lat := la; lng := lo |} in
        nav_inv (app (world j))
        /\ (if isValidCoord (VNum la) && isValidCoord (VNum lo)
               && negb isNavigating
            then navHistory (app (world j))
                 = slice (navHistory r) 0 (Some (historyIndex r + 1)) ++ [entry]
                 /\ historyIndex (app (world j))
                    = Z.of_nat (List.length (navHistory (app (world j)))) - 1
                 /\ index (navHistory (app (world j)))
                          (historyIndex (app (world j))) = Some entry
            else sameNav (app w) (app (world j)))
        /\ navStable (residue j) /\ Forall navStable (spawned j))
  /\ (forall now, nav_inv (initialApp now)).
Proof.
  intros I. split; [|split; [|split]]; [| | |intros now; unfold nav_inv; cbn; lia].
  - now apply handleBack_nav.
  - now apply handleForward_nav.
  - intros r n la lo nav. cbv zeta.
    destruct (jumpTo_pending_navStable v r n la lo nav w) as [S1 S2].
    destruct (isValidCoord (VNum la) && isValidCoord (VNum lo)) eqn:V.
    + destruct nav; cbn [negb andb].
      * destruct (jumpTo_traversal v r n la lo w) as [T1 T2].
        unfold nav_inv, sameNav. rewrite T1, T2. auto.
      * apply andb_prop in V. destruct V as [Va Vo].
        destruct (jumpTo_fresh v r n la lo w Va Vo) as [F1 F2].
        rewrite F1, F2. unfold nav_inv. rewrite F1, F2.
        rewrite index_last, length_app. cbn [List.length].
        split; [lia|]. split; [|split; assumption].
        split; [reflexivity|]. split; [lia | reflexivity].
    + cbn [andb]. destruct (jumpTo_invalid v r n la lo nav w V) as [T1 T2].
      unfold nav_inv, sameNav. rewrite T1, T2. auto.
Qed.

Lemma nav_invariant_witness :
  nav_inv (app w0)
  /\ nav_inv (app (world (runApp (handleBack AppTsx (app w0)) w0))).
Proof.
  assert (I : nav_inv (app w0)) by (unfold nav_inv; cbn; lia).
  split; [exact I|].
  exact (proj1 (proj1 (nav_invariant AppTsx w0 I))).
Defined.

(** C5: with entries [A; B; C] and the cursor at 2, [handleBack] leaves
    the entries alone and moves the cursor to 1; a fresh [jumpTo] to [D]
    (valid coordinates) from a render that sees that history then yields
    [A; B; D] with the cursor at 2. *)
Theorem history_truncation (v : Variant) (A B C : NavLocation) (n : string)
        (la lo : number) (w : World) :
  navHistory (app w) = [A; B; C] ->
  historyIndex (app w) = 2 ->
  isValidCoord (VNum la) = true ->
  isValidCoord (VNum lo) = true ->
  let w1 := world (runApp (handleBack v (app w)) w) in
  navHistory (app w1) = [A; B; C]
  /\ historyIndex (app w1) = 1
  /\ forall w2, sameNav (app w1) (app w2) ->
       let w3 := world (runApp (jumpTo v (app w2) n la lo false) w2) in
       navHistory (app w3) = [A; B; {| name := n; lat := la; lng := lo |}]
       /\ historyIndex (app w3) = 2.
Proof.
  intros HN HI Va Vo. cbv zeta.
  assert (I : nav_inv (app w)) by (unfold nav_inv; rewrite HN, HI; cbn; lia).
  destruct (handleBack_nav v w I) as (_ & B1 & B2 & _).
  rewrite HI in B2. cbn in B2. rewrite B1, B2, HN.
  split; [reflexivity|]. split; [reflexivity|].
  intros w2 [S1 S2].
  destruct (jumpTo_fresh v (app w2) n la lo w2 Va Vo) as [F1 F2].
  rewrite F1, F2, S1, S2, B1, B2, HN. split; reflexivity.
Qed.

Lemma history_truncation_witness :
  let P := {| name := "Petra"; lat := S754_zero false; lng := S754_zero false |} in
  let w := mkWorld (apply_write (SetHistoryIndex 2)
                      (apply_write (SetNavHistory [P; P; P]) (initialApp 0))) 0 true in
  historyIndex (app (world (runApp (handleBack AppTsx (app w)) w))) = 1.
Proof.
  cbv zeta.
  refine (proj1 (proj2 (history_truncation AppTsx _ _ _ "D" (S754_zero false)
                          (S754_zero false) _ _ _ _ _)));
    reflexivity.
Defined.

(* --------------------------------------------------------------------- *)
(** *** Session tokens *)

Lemma eqb_next (a : Z) : (a =? a + 1) = false.
Proof. apply Z.eqb_neq. lia. Qed.

(** C1: a refresh captures the token [N] it allocates.  Resumed in any
    world whose active token differs from [N], with any outcome of its
    two fetches, it leaves the world as it is and writes nothing.  When a
    refresh for [N + 1] has started meanwhile, the gallery and the
    questions end up as the outcome of [N + 1] alone (empty when its
    fetches fail), whether [N] settles before or after [N + 1]. *)
Theorem stale_refresh_discarded (place : string) (w : World) :
  let r := runApp (updateGalleryAndQuestions place) w in
  let N := activeSessionId (app w) + 1 in
  activeSessionId (app (world r)) = N
  /\ (forall ans w', activeSessionId (app w') <> N ->
        let r' := resumeApp (residue r) ans w' in
        world r' = w' /\ quiet (trace r') = true /\ residue r' = Ret tt
        /\ spawned r' = [])
  /\ (forall place' ansN ansN1,
        let r1 := runApp (updateGalleryAndQuestions place') (world r) in
        let first := world (resumeApp (residue r1) ansN1
                             (world (resumeApp (residue r) ansN (world r1)))) in
        let last := world (resumeApp (residue r) ansN
                            (world (resumeApp (residue r1) ansN1 (world r1)))) in
        first = last
        /\ galleryImages (app first)
           = match ansN1 _ (refreshOp place') with
             | Fulfilled res => fst res
             | Rejected _ => []
             end
        /\ suggestedQuestions (app first)
           = match ansN1 _ (refreshOp place') with
             | Fulfilled res => snd res
             | Rejected _ => []
             end).
Proof.
  cbv zeta. split; [|split].
  - open_world w. reflexivity.
  - intros ans w' H. open_world w. cbn in H |- *.
    unfold resumeApp, resume.
    destruct (ans _ _) as [res|e]; open_world w'; cbn in H |- *;
      (destruct (_ =? _) eqn:E; [apply Z.eqb_eq in E; congruence|]);
      cbn; rewrite ?E; cbn; repeat split; reflexivity.
  - intros place' ansN ansN1. open_world w. unfold refreshOp. cbn.
    unfold resumeApp, resume.
    destruct (ansN _ _) as [resN|eN]; destruct (ansN1 _ _) as [res1|e1]; cbn;
      repeat (first
                [ progress (rewrite ?eqb_next, ?Z.eqb_refl; cbn)
                | match goal with
                  | |- context [if ?b then _ else _] =>
                      is_var b; destruct b; cbn
                  end ]);
      repeat split; reflexivity.
Qed.

Lemma stale_refresh_discarded_witness :
  let r := runApp (updateGalleryAndQuestions "Petra") w0 in
  let w' := world (runApp (updateGalleryAndQuestions "Vashon Island") (world r)) in
  activeSessionId (app w') <> activeSessionId (app w0) + 1
  /\ world (resumeApp (residue r) (luckyGateway (Build_NavLocation "" origin origin)) w')
     = w'.
Proof.
  cbv zeta.
  assert (H : activeSessionId
                (app (world (runApp (updateGalleryAndQuestions "Vashon Island")
                               (world (runApp (updateGalleryAndQuestions "Petra") w0)))))
              <> activeSessionId (app w0) + 1) by (cbn; lia).
  split; [exact H|].
  exact (proj1 (proj1 (proj2 (stale_refresh_discarded "Petra" w0)) _ _ H)).
Defined.

(* --------------------------------------------------------------------- *)
(** *** The transition controller *)

(** C6: an invocation of [jumpTo] that passes validation calls
    [setIsLoading(true)] once, before it suspends on the summary, and
    [setIsLoading(false)] once, when the summary settles, fulfilled or
    rejected; the refresh it spawns never touches the flag. *)
Theorem busy_flag_once (v : Variant) (r : AppState) (n : string)
        (la lo : number) (isNavigating : bool) (w : World) :
  isValidCoord (VNum la) = true ->
  isValidCoord (VNum lo) = true ->
  let j := runApp (jumpTo v r n la lo isNavigating) w in
  countLoading true (trace j) = 1%nat
  /\ countLoading false (trace j) = 0%nat
  /\ isLoading (app (world j)) = true
  /\ (forall ans w',
        let d := resumeApp (residue j) ans w' in
        countLoading false (trace d) = 1%nat
        /\ countLoading true (trace d) = 0%nat
        /\ isLoading (app (world d)) = false
        /\ residue d = Ret tt)
  /\ Forall (fun t => forall ans w' b,
                countLoading b (trace (resumeApp t ans w')) = 0%nat)
            (spawned j).
Proof.
  intros Va Vo. cbv zeta. unfold jumpTo. rewrite Va, Vo.
  open_world w.
  destruct isNavigating; cbn; (do 3 (split; [reflexivity|])); split.
  - intros ans w'. settle ans w'; repeat split; reflexivity.
  - apply Forall_cons; [|apply Forall_nil].
    intros ans w' b. settle ans w'; destruct b; reflexivity.
  - intros ans w'. settle ans w'; repeat split; reflexivity.
  - apply Forall_cons; [|apply Forall_nil].
    intros ans w' b. settle ans w'; destruct b; reflexivity.
Qed.

Lemma busy_flag_once_witness :
  countLoading true
    (trace (runApp (jumpTo AppTsx (app w0) "Petra" origin origin false) w0))
  = 1%nat.
Proof.
  refine (proj1 (busy_flag_once AppTsx (app w0) "Petra" origin origin false w0
                   _ _)); reflexivity.
Defined.





(* --------------------------------------------------------------------- *)
(** *** Retry with backoff *)

#[local] Arguments Nat.mul : simpl never.
#[local] Arguments Z.pow : simpl never.
#[local] Arguments Z.mul : simpl never.

Section EXEC.

Variables (Sy As : Type -> Type) (World : Type).
Variable handle : forall X, Sy X -> World -> X * World.

(** A handler runs exactly when the body rejects, from where it stopped. *)
Lemma exec_try_catch (A : Type) (m : Prog Sy As A)
      (h : error -> Prog Sy As A)
      (ans : nat -> forall X, As X -> settled X) (n : nat) (w : World) :
  exec handle (try_catch m h) ans n w
  = let d := exec handle m ans n w in
    match result d with
    | Fulfilled _ => d
    | Rejected e =>
        let d' := exec handle (h e) ans (awaits d) (final d) in
        mkDone (result d') (final d') (events d ++ events d') (awaits d')
    end.
Proof.
  revert n w.
  induction m as [A a|A e|A X op k IH|A X op k IH|A p IHp k IHk];
    intros n w; cbn.
  - reflexivity.
  - destruct (exec handle (h e) ans n w); reflexivity.
  - destruct (handle _ op w) as [x w1]. rewrite IH. cbn.
    destruct (exec handle (k x) ans n w1) as [[?|e] ? ? ?]; reflexivity.
  - rewrite IH. cbn.
    destruct (exec handle (k (ans n X op)) ans (S n) w) as [[?|e] ? ? ?];
      reflexivity.
  - rewrite IHk. cbn.
    destruct (exec handle k ans n _) as [[?|e] ? ? ?]; cbn; [reflexivity|].
    now rewrite app_assoc.
Qed.

End EXEC.

Import GeminiService.

Section LOOP.

Variable As : Type -> Type.
Variable setTimeout : Z -> As unit.
Variables X T : Type.
Variable op : As X.
Variable f : X -> T.
Variable fn : Prog SvcOp As T.
Hypothesis Hfn : singleAwait op f fn.
Variables maxRetries baseDelay : Z.
Variable ans : nat -> forall X, As X -> settled X.

(** The loop from [attempt] on retries some [k] times, fewer than the
    iterations it has left: the first [k] invocations fail with a
    retryable error, and the next one decides the outcome. *)
Lemma retryLoop_exec (fuel : nat) :
  forall (attempt : Z) (lastError : error) (n : nat) (w : Randoms),
    Z.of_nat fuel = maxRetries + 1 - attempt ->
    (0 < fuel)%nat ->
    let d := execSvc (retryLoop setTimeout fn maxRetries baseDelay fuel
                                attempt lastError) ans n w in
    exists k : nat,
      (k < fuel)%nat
      /\ events d = retryTrace setTimeout op baseDelay k attempt w
      /\ result d = smap f (ans (n + 2 * k)%nat X op)
      /\ (forall i, (i < k)%nat ->
                    exists e, ans (n + 2 * i)%nat X op = Rejected e
                              /\ retryable e = true)
      /\ match ans (n + 2 * k)%nat X op with
         | Fulfilled _ => True
         | Rejected e => retryable e = false \/ S k = fuel
         end
      /\ awaits d = (n + 2 * k + 1)%nat
      /\ final d = skipn k w.
Proof.
  induction fuel as [|fuel' IH]; intros attempt lastError n w Hf Hpos; [lia|].
  cbv zeta. unfold execSvc. cbn [retryLoop].
  assert (Hle : (attempt <=? maxRetries) = true) by (apply Z.leb_le; lia).
  rewrite Hle, exec_try_catch.
  pose proof (Hfn ans n w) as E. unfold execSvc in E. rewrite E. cbn.
  destruct (ans n X op) as [x|e] eqn:A0; cbn.
  - exists 0%nat. rewrite Nat.add_0_r, A0. cbn.
    repeat split; auto; try lia.
  - fold (retryable e).
    destruct (retryable e && (attempt <? maxRetries)) eqn:R; cbn.
    + apply andb_prop in R. destruct R as [R1 R2]. apply Z.ltb_lt in R2.
      destruct (IH (attempt + 1) e (S (S n)) (tl w))
        as (k & K1 & K2 & K3 & K4 & K5 & K6 & K7); [lia | lia |].
      unfold execSvc in *.
      exists (S k).
      replace (n + 2 * S k)%nat with (S (S n) + 2 * k)%nat by lia.
      rewrite K2, K3, K6. cbn [retryTrace]. rewrite K7.
      split; [lia|]. split; [reflexivity|]. split; [reflexivity|].
      split; [|split; [|split; [lia|]]].
      * intros [|i] Hi.
        -- exists e. rewrite Nat.add_0_r. auto.
        -- replace (n + 2 * S i)%nat with (S (S n) + 2 * i)%nat by lia.
           apply K4. lia.
      * destruct (ans (S (S n) + 2 * k)%nat X op); [exact I|].
        destruct K5 as [K5|K5]; [now left | right; lia].
      * destruct w; [now destruct k|reflexivity].
    + exists 0%nat. rewrite Nat.add_0_r, A0. cbn.
      split; [lia|]. split; [reflexivity|]. split; [reflexivity|].
      split; [intros i Hi; lia|]. split; [|split; [lia|reflexivity]].
      apply andb_false_iff in R. destruct R as [R|R]; [now left|].
      right. apply Z.ltb_ge in R. lia.
Qed.

End LOOP.

Lemma invocations_retryTrace (T : Type) (baseDelay : Z) (k : nat) :
  forall attempt w,
    invocations (retryTrace (@Timeout T) Invoke baseDelay k attempt w) = S k.
Proof.
  induction k as [|k IH]; intros attempt w; [reflexivity|].
  cbn [retryTrace]. unfold invocations in *. cbn. now rewrite IH.
Qed.

Lemma timeouts_retryTrace (T : Type) (baseDelay : Z) (k : nat) :
  forall attempt w,
    timeouts (retryTrace (@Timeout T) Invoke baseDelay k attempt w)
    = map (fun i => baseDelay * 3 ^ (attempt + Z.of_nat i) + nth i w 0)
          (seq 0 k).
Proof.
  induction k as [|k IH]; intros attempt w; [reflexivity|].
  cbn [retryTrace]. unfold timeouts in *. cbn [flat_map].
  rewrite IH. cbn [seq map Datatypes.app]. f_equal.
  - cbn [Z.of_nat]. rewrite Z.add_0_r. now destruct w.
  - rewrite <- seq_shift, map_map. apply map_ext. intros i.
    f_equal; [f_equal; f_equal; lia | now destruct w, i].
Qed.

Lemma singleAwait_invoke (T : Type) :
  singleAwait (@Invoke T) (fun x => x) (awaitOp Invoke).
Proof.
  intros ans n w. unfold execSvc. cbn.
  destruct (ans n T Invoke); reflexivity.
Qed.

Lemma retryable_spec (e : error) :
  retryable e = true <->
  match e with
  | ErrUndefined => False
  | ErrObj message status =>
      (exists m, message = Some m /\ includes m "429" = true)
      \/ status = Some 429
      \/ (exists s, status = Some s /\ 500 <= s <= 504)
  end.
Proof.
  unfold retryable, isRateLimited, isServerError.
  destruct e as [|m s]; [split; [discriminate | tauto]|].
  split.
  - intros H. apply orb_true_iff in H. destruct H as [H|H].
    + apply orb_true_iff in H. destruct H as [H|H].
      * destruct m as [m|]; [left; eauto | discriminate].
      * destruct s as [s|]; [|discriminate].
        apply Z.eqb_eq in H. right; left; congruence.
    + destruct s as [s|]; [|discriminate].
      apply andb_true_iff in H. destruct H as [H1 H2].
      apply Z.geb_le in H1. apply Z.leb_le in H2. right; right; eauto.
  - intros [(m' & -> & H)|[-> | (s' & -> & H)]].
    + now rewrite H.
    + now rewrite Z.eqb_refl, orb_true_r.
    + apply orb_true_iff; right.
      apply andb_true_iff; split; [apply Z.geb_le | apply Z.leb_le]; lia.
Qed.

(** A gateway answering every invocation with the error [e]. *)
Example retry_exhausts :
  let d := execSvc (retrying nat 4 3000)
             (fun _ X op =>
                match op in RetryEff _ R return settled R with
                | Invoke => Rejected (ErrObj None (Some 503))
                | Timeout _ => Fulfilled tt
                end) 0 [100; 200; 300; 400] in
  invocations (events d) = 5%nat
  /\ timeouts (events d) = [3100; 9200; 27300; 81400]
  /\ result d = Rejected (ErrObj None (Some 503)).
Proof. vm_compute. repeat split; reflexivity. Qed.

Example retry_gives_up_on_other_errors :
  let d := execSvc (retrying nat 4 3000)
             (fun _ X op =>
                match op in RetryEff _ R return settled R with
                | Invoke => Rejected (ErrObj (Some "Bad request") (Some 400))
                | Timeout _ => Fulfilled tt
                end) 0 [] in
  invocations (events d) = 1%nat /\ timeouts (events d) = [].
Proof. vm_compute. split; reflexivity. Qed.

Example retry_then_success :
  let d := execSvc (retrying nat 4 3000)
             (fun n X op =>
                match op in RetryEff _ R return settled R with
                | Invoke => if (n <? 4)%nat
                            then Rejected (ErrObj (Some "got 429 from upstream") None)
                            else Fulfilled 7%nat
                | Timeout _ => Fulfilled tt
                end) 0 [5; 6] in
  invocations (events d) = 3%nat
  /\ timeouts (events d) = [3005; 9006]
  /\ result d = Fulfilled 7%nat.
Proof. vm_compute. repeat split; reflexivity. Qed.

(** C8: [withRetry] around an operation invokes it [c] times with
    [1 <= c <= maxRetries + 1] (5 by default).  Every invocation before
    the last failed with a rate-limit or server error and was followed by
    a wait of [baseDelay * 3^attempt] plus jitter; the outcome is that of
    the last invocation: its value, or its error when the error is of
    another kind or the [maxRetries + 1] invocations are used up. *)
Theorem withRetry_bounded (T : Type) (maxRetries baseDelay : Z)
        (ans : nat -> forall X, RetryEff T X -> settled X) (w : Randoms) :
  0 <= maxRetries ->
  let d := execSvc (retrying T maxRetries baseDelay) ans 0 w in
  let c := invocations (events d) in
  (1 <= c <= Z.to_nat maxRetries + 1)%nat
  /\ (maxRetries = 4 -> (c <= 5)%nat)
  /\ result d = ans (2 * (c - 1))%nat T Invoke
  /\ (forall i, (i < c - 1)%nat ->
                exists e, ans (2 * i)%nat T Invoke = Rejected e
                          /\ retryable e = true)
  /\ match result d with
     | Fulfilled _ => True
     | Rejected e => retryable e = false \/ c = (Z.to_nat maxRetries + 1)%nat
     end
  /\ timeouts (events d)
     = map (fun i => baseDelay * 3 ^ Z.of_nat i + nth i w 0) (seq 0 (c - 1))
  /\ (forall e, retryable e = true <->
                match e with
                | ErrUndefined => False
                | ErrObj message status =>
                    (exists m, message = Some m /\ includes m "429" = true)
                    \/ status = Some 429
                    \/ (exists s, status = Some s /\ 500 <= s <= 504)
                end).
Proof.
  intros Hm. cbv zeta. unfold retrying, withRetry.
  destruct (retryLoop_exec _ Timeout _ _ _ _ _ (singleAwait_invoke T)
              maxRetries baseDelay ans
              (Z.to_nat (maxRetries + 1)) 0 ErrUndefined 0%nat w)
    as (k & K1 & K2 & K3 & K4 & K5 & _ & _); [lia | lia |].
  cbn [Nat.add] in *.
  rewrite K2, invocations_retryTrace, timeouts_retryTrace, K3.
  replace (S k - 1)%nat with k by lia.
  assert (Hid : forall r : settled T, smap (fun x => x) r = r)
    by (intros [?|?]; reflexivity).
  rewrite Hid.
  split; [lia|]. split; [intros ->; cbn in K1; lia|].
  split; [reflexivity|]. split; [exact K4|]. split; [|split].
  - destruct (ans (2 * k)%nat T Invoke); [exact I|].
    destruct K5 as [K5|K5]; [now left | right; lia].
  - reflexivity.
  - exact retryable_spec.
Qed.

Lemma withRetry_bounded_witness :
  (invocations
     (events (execSvc (retrying nat 4 3000)
                (fun n X op =>
                   match op in RetryEff _ R return settled R with
                   | Invoke => Rejected (ErrObj None (Some 503%Z))
                   | Timeout _ => Fulfilled tt
                   end) 0 [])) <= 5)%nat.
Proof.
  refine (proj1 (proj2 (withRetry_bounded nat 4 3000 _ [] _)) eq_refl).
  lia.
Defined.





(* --------------------------------------------------------------------- *)
(** *** Chat transcript *)






(* --------------------------------------------------------------------- *)
(** *** Recently seen places *)

Lemma slice_last_length {A} (l : list A) (k : nat) :
  (0 < k)%nat ->
  List.length (slice l (- Z.of_nat k) None) = Nat.min (List.length l) k.
Proof.
  intros Hk. unfold slice. cbv zeta beta.
  destruct (- Z.of_nat k <? 0) eqn:E;
    [apply Z.ltb_lt in E | apply Z.ltb_ge in E; lia].
  rewrite length_firstn, length_skipn. lia.
Qed.

(** Each push keeps the last 20 names and adds one. *)
Lemma seenHistory_push_length (n : string) (s : AppState) :
  List.length (seenHistory (apply_write (SetSeenHistory_push n) s))
  = S (Nat.min (List.length (seenHistory s)) 20).
Proof.
  destruct s. cbn. rewrite length_app. cbn [List.length].
  rewrite (slice_last_length _ 20) by lia. lia.
Qed.

(** C3 (the code at the failing input): after 25 successful
    random-location results from a fresh session, [seenHistory] holds 21
    names, those of results 5 to 25. *)
Theorem seenHistory_after_25 (v : Variant) :
  let w := fold_left (luckyRound v) (placeNames 1 25) w0 in
  seenHistory (app w) = placeNames 5 21
  /\ List.length (seenHistory (app w)) = 21%nat.
Proof.
  cbv zeta. destruct v; vm_compute; split; reflexivity.
Qed.

(* ===================================================================== *)
(** ** Further properties: handlers, image cards, gateway methods *)
(* ===================================================================== *)

Import GeminiMethods.

#[local] Arguments isValidCoord : simpl never.

(* --------------------------------------------------------------------- *)
(** *** Session tokens and the gallery refresh *)

Lemma handle_session (X : Type) (op : AppOp X) (w : World) :
  activeSessionId (app w) <= activeSessionId (app (snd (handle op w))).
Proof.
  destruct op; open_world w; cbn; try lia.
  destruct wr; cbn; lia.
Qed.

Lemma run_session (A : Type) (m : P A) :
  forall w, activeSessionId (app w) <= activeSessionId (app (world (runApp m w))).
Proof.
  unfold runApp.
  induction m as [A a|A e|A X op k IH|A X op k IH|A p IHp k IHk]; intros w; cbn.
  - lia.
  - lia.
  - pose proof (handle_session X op w) as H.
    destruct (handle op w) as [x w1]. cbn in *. specialize (IH x w1). lia.
  - lia.
  - specialize (IHp w). specialize (IHk (world (run handle p w))). lia.
Qed.

(** X1: no function of the component ever lowers [activeSessionId]: running
    or resuming any of them leaves it at least as large, and
    [updateGalleryAndQuestions], a [handleFeelingLucky] that passes its
    guard and a [jumpTo] that passes validation each raise it by exactly
    one. *)
Theorem session_monotonic :
  (forall (A : Type) (m : P A) (w : World),
      activeSessionId (app w) <= activeSessionId (app (world (runApp m w))))
  /\ (forall (A : Type) (m : P A) ans (w : World),
        activeSessionId (app w)
        <= activeSessionId (app (world (resumeApp m ans w))))
  /\ (forall place w,
        activeSessionId (app (world (runApp (updateGalleryAndQuestions place) w)))
        = activeSessionId (app w) + 1)
  /\ (forall v r w,
        isLoading r = false ->
        activeSessionId (app (world (runApp (handleFeelingLucky v r) w)))
        = activeSessionId (app w) + 1)
  /\ (forall v r n la lo nav w,
        isValidCoord (VNum la) = true -> isValidCoord (VNum lo) = true ->
        activeSessionId (app (world (runApp (jumpTo v r n la lo nav) w)))
        = activeSessionId (app w) + 1).
Proof.
  split; [exact run_session|]. split; [|split; [|split]].
  - intros A m ans w. unfold resumeApp, resume.
    destruct m; cbn; try lia. apply run_session.
  - intros place w. open_world w. reflexivity.
  - intros v r w H. unfold handleFeelingLucky. rewrite H. open_world w. reflexivity.
  - intros v r n la lo nav w Va Vo. unfold jumpTo. rewrite Va, Vo.
    open_world w. destruct nav; reflexivity.
Qed.

Lemma session_monotonic_witness :
  activeSessionId (app (world (runApp (handleFeelingLucky AppTsx (app w0)) w0)))
  = activeSessionId (app w0) + 1.
Proof.
  exact (proj1 (proj2 (proj2 (proj2 session_monotonic))) AppTsx (app w0) w0 eq_refl).
Defined.


(** X2: a refresh empties the gallery and the questions and raises the
    gallery-loading flag at once; when it settles while its token is still
    the active one it clears that flag whatever the outcome, on success
    installs the fetched images and questions (scheduling the scroll reset
    exactly when the scroll container is mounted), and on failure leaves
    both lists as they are. *)
Theorem refresh_applies_when_current (place : string) (w : World) :
  let r := runApp (updateGalleryAndQuestions place) w in
  galleryImages (app (world r)) = []
  /\ suggestedQuestions (app (world r)) = []
  /\ isGalleryLoading (app (world r)) = true
  /\ forall ans w',
      activeSessionId (app w') = activeSessionId (app w) + 1 ->
      let d := resumeApp (residue r) ans w' in
      residue d = Ret tt
      /\ isGalleryLoading (app (world d)) = false
      /\ match ans _ (refreshOp place) with
         | Fulfilled res =>
             galleryImages (app (world d)) = fst res
             /\ suggestedQuestions (app (world d)) = snd res
             /\ existsb isScrollReset (trace d) = scrollMounted w'
         | Rejected _ =>
             galleryImages (app (world d)) = galleryImages (app w')
             /\ suggestedQuestions (app (world d)) = suggestedQuestions (app w')
         end.
Proof.
  cbv zeta. open_world w. cbn. do 3 (split; [reflexivity|]).
  intros ans w' H. unfold resumeApp, resume, refreshOp.
  destruct (ans _ _) as [res|e]; open_world w'; cbn in H |- *; subst;
    repeat (first [ progress (rewrite ?Z.eqb_refl; cbn)
                  | match goal with
                    | |- context [if ?b then _ else _] => is_var b; destruct b; cbn
                    end ]);
    repeat split; reflexivity.
Qed.

Lemma refresh_applies_when_current_witness :
  isGalleryLoading
    (app (world (resumeApp
                   (residue (runApp (updateGalleryAndQuestions "Petra") w0))
                   (summaryGateway "")
                   (world (runApp (updateGalleryAndQuestions "Petra") w0)))))
  = false.
Proof.
  refine (proj1 (proj2 (proj2 (proj2 (proj2 (refresh_applies_when_current "Petra" w0)))
                          (summaryGateway "") _ _))).
  reflexivity.
Defined.



(* --------------------------------------------------------------------- *)
(** *** The guarded handlers *)
















(** X9: a map click that passes the guard only raises the busy flag and asks
    for the nearest place; a missing place, a place with invalid coordinates
    or a rejection ends with the flag cleared and nothing else changed, and
    a valid place starts the transition to it. *)
Theorem map_click_outcomes (v : Variant) (r : AppState) (la lo : number)
        (w : World) :
  isLoading r = false ->
  isValidCoord (VNum la) = true -> isValidCoord (VNum lo) = true ->
  let a := runApp (handleMapClick v r la lo) w in
  app (world a) = apply_write (SetIsLoading true) (app w)
  /\ In (EvDispatch (ReverseGeocode la lo)) (trace a)
  /\ forall (ans : forall X, Gateway X -> settled X) w',
      let b := resumeApp (residue a) ans w' in
      match ans _ (ReverseGeocode la lo) with
      | Fulfilled (Some res) =>
          if isValidCoord (VNum (lat res)) && isValidCoord (VNum (lng res)) then
            currentLocationName (app (world b)) = name res
            /\ mapCenter (app (world b)) = (lat res, lng res)
            /\ navHistory (app (world b))
               = slice (navHistory r) 0 (Some (historyIndex r + 1)) ++ [res]
            /\ In (EvDispatch (GetLocationSummary (name res))) (trace b)
          else
            residue b = Ret tt /\ existsb isDispatch (trace b) = false
            /\ app (world b) = apply_write (SetIsLoading false) (app w')
      | _ =>
          residue b = Ret tt /\ existsb isDispatch (trace b) = false
          /\ app (world b) = apply_write (SetIsLoading false) (app w')
      end.
Proof.
  intros B Va Vo. cbv zeta. unfold handleMapClick. rewrite B, Va, Vo.
  open_world w. cbn. split; [reflexivity|]. split; [auto|].
  intros ans w'. unfold resumeApp, resume.
  destruct (ans _ _) as [[res|]|err]; cbn.
  - destruct (isValidCoord (VNum (lat res)) && isValidCoord (VNum (lng res))) eqn:V.
    + apply andb_prop in V. destruct V as [V1 V2].
      unfold jumpTo. rewrite V1, V2. destruct res. open_world w'. cbn.
      repeat split; auto 30.
    + open_world w'. cbn. repeat split; reflexivity.
  - open_world w'. cbn. repeat split; reflexivity.
  - open_world w'. cbn. repeat split; reflexivity.
Qed.

Lemma map_click_outcomes_witness :
  app (world (runApp (handleMapClick AppTsx (app w0) origin origin) w0))
  = apply_write (SetIsLoading true) (app w0).
Proof.
  refine (proj1 (map_click_outcomes AppTsx (app w0) origin origin w0 _ _ _));
    reflexivity.
Defined.

(** X10: a random-location request that passes the guard empties gallery and
    questions, raises the busy flag, appends the transient message and
    passes the seen list of its render as exclusions; a missing or invalid
    result removes the transient message, clears the flag and appends the
    notice; a rejection clears the flag and leaves the transient message in
    place ([part_000] also appends a notice); a valid result is pushed onto
    the seen list and starts the transition. *)
Theorem lucky_outcomes (v : Variant) (r : AppState) (w : World) :
  isLoading r = false ->
  let a := runApp (handleFeelingLucky v r) w in
  let loadingId := toString (clock w) in
  galleryImages (app (world a)) = []
  /\ suggestedQuestions (app (world a)) = []
  /\ isLoading (app (world a)) = true
  /\ messages (app (world a))
     = messages (app w)
       ++ [assistantMessage loadingId "Scouring the globe for something unique..."
             (clock w)]
  /\ In (EvDispatch (GetDynamicCoolLocation (seenHistory r))) (trace a)
  /\ forall (ans : forall X, Gateway X -> settled X) w',
      let b := resumeApp (residue a) ans w' in
      let say c := SetMessages_append
                     (assistantMessage (toString (clock w')) c (clock w')) in
      let missed :=
        residue b = Ret tt /\ existsb isDispatch (trace b) = false
        /\ app (world b)
           = apply_write (say luckyNotice)
               (apply_write (SetIsLoading false)
                  (apply_write (SetMessages_remove loadingId) (app w'))) in
      match ans _ (GetDynamicCoolLocation (seenHistory r)) with
      | Fulfilled (Some g) =>
          if isValidCoord (VNum (lat g)) && isValidCoord (VNum (lng g)) then
            seenHistory (app (world b))
            = slice (seenHistory (app w')) (-20) None ++ [name g]
            /\ currentLocationName (app (world b)) = name g
            /\ navHistory (app (world b))
               = slice (navHistory r) 0 (Some (historyIndex r + 1)) ++ [g]
            /\ In (EvDispatch (GetLocationSummary (name g))) (trace b)
          else missed
      | Fulfilled None => missed
      | Rejected _ =>
          residue b = Ret tt /\ existsb isDispatch (trace b) = false
          /\ app (world b)
             = match v with
               | AppTsx => apply_write (SetIsLoading false) (app w')
               | Part000 =>
                   apply_write
                     (say "Warp coordinates lost. Try searching manually!")
                     (apply_write (SetIsLoading false) (app w'))
               end
      end.
Proof.
  intros B. cbv zeta. unfold handleFeelingLucky. rewrite B.
  open_world w. cbn. do 4 (split; [reflexivity|]). split; [auto 10|].
  intros ans w'. unfold resumeApp, resume.
  destruct (ans _ _) as [[g|]|err]; cbn.
  - destruct (isValidCoord (VNum (lat g)) && isValidCoord (VNum (lng g))) eqn:V.
    + apply andb_prop in V. destruct V as [V1 V2].
      unfold jumpTo. rewrite V1, V2. destruct g. open_world w'. cbn.
      repeat split; auto 30.
    + open_world w'. cbn. repeat split; reflexivity.
  - open_world w'. cbn. repeat split; reflexivity.
  - open_world w'. destruct v; cbn; repeat split; reflexivity.
Qed.

Lemma lucky_outcomes_witness :
  isLoading (app (world (runApp (handleFeelingLucky Part000 (app w0)) w0))) = true.
Proof.
  exact (proj1 (proj2 (proj2 (lucky_outcomes Part000 (app w0) w0 eq_refl)))).
Defined.

(** X11: clicking a suggested question removes it from the list at once,
    busy or not (when busy the question is not even sent), and asks for one
    replacement with the exclusion list of the clicking render; the
    replacement is appended when it is a non-empty string, otherwise, and on
    rejection, the list stays one short, and the handler never rejects. *)
Theorem discovery_question_flow (r : AppState) (question : string) (w : World) :
  let a := runApp (handleDiscoveryQuestion r question) w in
  suggestedQuestions (app (world a))
  = filter (fun q => negb (String.eqb q question)) (suggestedQuestions (app w))
  /\ ~ In question (suggestedQuestions (app (world a)))
  /\ In (EvDispatch (GetSinglePertinentQuestion (currentLocationName r)
                       (suggestedQuestions r))) (trace a)
  /\ (isLoading r = true ->
      messages (app (world a)) = messages (app w)
      /\ spawned a = [Ret tt])
  /\ forall (ans : forall X, Gateway X -> settled X) w',
      let b := resumeApp (residue a) ans w' in
      residue b = Ret tt
      /\ suggestedQuestions (app (world b))
         = match ans _ (GetSinglePertinentQuestion (currentLocationName r)
                          (suggestedQuestions r)) with
           | Fulfilled (Some (String c s)) =>
               suggestedQuestions (app w') ++ [String c s]
           | _ => suggestedQuestions (app w')
           end.
Proof.
  cbv zeta. unfold handleDiscoveryQuestion.
  assert (F : forall l, ~ In question
                          (filter (fun q => negb (String.eqb q question)) l)).
  { intros l H. apply filter_In in H. destruct H as [_ H].
    now rewrite String.eqb_refl in H. }
  unfold handleSend.
  destruct (negb (truthy_str (Some (trim (or_str (Some question) (input r)))))
            || isLoading r) eqn:G.
  - open_world w. cbn. split; [reflexivity|]. split; [apply F|].
    split; [auto|]. split; [intros _; split; reflexivity|].
    intros ans w'. unfold resumeApp, resume.
    destruct (ans _ _) as [[[|c s]|]|err]; open_world w'; cbn; split; reflexivity.
  - apply orb_false_elim in G. destruct G as [_ G]. rewrite G.
    open_world w. destruct question as [|c q]; cbn.
    all: split; [reflexivity|]. all: split; [apply F|].
    all: split; [auto 10|]. all: split; [discriminate|].
    all: intros ans w'; unfold resumeApp, resume;
      destruct (ans _ _) as [[[|c' s]|]|err]; open_world w'; cbn; split; reflexivity.
Qed.

Lemma discovery_question_flow_witness :
  messages (app (world (runApp (handleDiscoveryQuestion (busyAt 0) "Why?")
                               (mkWorld (busyAt 0) 0 true))))
  = messages (busyAt 0).
Proof.
  exact (proj1 (proj1 (proj2 (proj2 (proj2
           (discovery_question_flow (busyAt 0) "Why?" (mkWorld (busyAt 0) 0 true)))))
           eq_refl)).
Defined.

(* --------------------------------------------------------------------- *)
(** *** Navigation history and the map *)

(** X12: back and forward undo each other: with a valid cursor that is not
    at the start, back followed by forward restores entries and cursor, and
    likewise forward followed by back when the cursor is not at the end; at
    the start back does nothing at all, and so does forward at the end. *)
Theorem traversal_roundtrip (v : Variant) (w : World) :
  nav_inv (app w) ->
  (0 < historyIndex (app w) ->
   let w1 := world (runApp (handleBack v (app w)) w) in
   forall w2, sameNav (app w1) (app w2) ->
              sameNav (app w) (app (world (runApp (handleForward v (app w2)) w2))))
  /\ (historyIndex (app w) < Z.of_nat (List.length (navHistory (app w))) - 1 ->
      let w1 := world (runApp (handleForward v (app w)) w) in
      forall w2, sameNav (app w1) (app w2) ->
                 sameNav (app w) (app (world (runApp (handleBack v (app w2)) w2))))
  /\ (historyIndex (app w) = 0 -> returnsAtOnce (handleBack v (app w)) w)
  /\ (historyIndex (app w) = Z.of_nat (List.length (navHistory (app w))) - 1 ->
      returnsAtOnce (handleForward v (app w)) w).
Proof.
  intros I. unfold nav_inv in I. split; [|split; [|split]].
  - intros G. cbv zeta. intros w2 [S1 S2].
    destruct (handleBack_nav v w I) as (_ & B1 & B2 & _).
    apply Z.gtb_lt in G. rewrite G in B2. rewrite B1 in S1. rewrite B2 in S2.
    assert (I2 : nav_inv (app w2)) by (unfold nav_inv; rewrite S1, S2; lia).
    destruct (handleForward_nav v w2 I2) as (_ & F1 & F2 & _).
    rewrite S1, S2 in F2.
    replace (historyIndex (app w) - 1 <? Z.of_nat (List.length (navHistory (app w))) - 1)
      with true in F2 by (symmetry; apply Z.ltb_lt; lia).
    split; [congruence | lia].
  - intros G. cbv zeta. intros w2 [S1 S2].
    destruct (handleForward_nav v w I) as (_ & B1 & B2 & _).
    apply Z.ltb_lt in G. rewrite G in B2. rewrite B1 in S1. rewrite B2 in S2.
    assert (I2 : nav_inv (app w2)) by (unfold nav_inv; rewrite S1, S2; lia).
    destruct (handleBack_nav v w2 I2) as (_ & F1 & F2 & _).
    rewrite S2 in F2.
    replace (historyIndex (app w) + 1 >? 0) with true in F2
      by (symmetry; apply Z.gtb_lt; lia).
    split; [congruence | lia].
  - intros E. unfold returnsAtOnce, handleBack. rewrite E. repeat split; reflexivity.
  - intros E. unfold returnsAtOnce, handleForward. rewrite E, Z.ltb_irrefl.
    repeat split; reflexivity.
Qed.

Lemma traversal_roundtrip_witness :
  returnsAtOnce (handleBack AppTsx (app w0)) w0.
Proof.
  refine (proj1 (proj2 (proj2 (traversal_roundtrip AppTsx w0 _))) eq_refl).
  unfold nav_inv. cbn. lia.
Defined.

Lemma Forall_slice {A} (Q : A -> Prop) (l : list A) (s : Z) (e : option Z) :
  Forall Q l -> Forall Q (slice l s e).
Proof.
  intros H. unfold slice. cbv zeta beta.
  set (a := Z.to_nat _). set (b := Z.to_nat _).
  rewrite <- (firstn_skipn b l) in H. apply Forall_app in H. destruct H as [_ H].
  rewrite <- (firstn_skipn a (skipn b l)) in H. apply Forall_app in H. tauto.
Qed.

Lemma index_Some {A} (l : list A) (i : Z) (x : A) :
  index l i = Some x -> 0 <= i < Z.of_nat (List.length l) /\ In x l.
Proof.
  unfold index. destruct (i <? 0) eqn:E; [discriminate|].
  apply Z.ltb_ge in E. intros H. split.
  - assert (Z.to_nat i < List.length l)%nat
      by (apply nth_error_Some; congruence). lia.
  - eapply nth_error_In; eauto.
Qed.

Lemma index_in_range {A} (l : list A) (i : Z) :
  0 <= i < Z.of_nat (List.length l) -> exists x, index l i = Some x.
Proof.
  intros H. unfold index. destruct (i <? 0) eqn:E; [apply Z.ltb_lt in E; lia|].
  destruct (nth_error l (Z.to_nat i)) eqn:N; [eauto|].
  apply nth_error_None in N. lia.
Qed.

Lemma traverse_view v w i :
  viewInv (app w) ->
  0 <= i < Z.of_nat (List.length (navHistory (app w))) ->
  let b := runApp (traverseTo v (app w) i) w in
  viewInv (app (world b)) /\ historyIndex (app (world b)) = i
  /\ navHistory (app (world b)) = navHistory (app w).
Proof.
  intros [V S] Hi. cbv zeta. unfold traverseTo.
  destruct (index_in_range _ _ Hi) as [p L]. rewrite L.
  destruct (index_Some _ _ _ L) as [_ Hp].
  assert (Vp : validEntry p = true) by (rewrite Forall_forall in V; auto).
  unfold validEntry in Vp. apply andb_prop in Vp. destruct Vp as [V1 V2].
  unfold jumpTo. rewrite V1, V2. unfold viewInv.
  open_world w. destruct p. cbn in *. auto.
Qed.

Lemma jumpTo_viewStable v r n la lo nav w :
  let j := runApp (jumpTo v r n la lo nav) w in
  viewStable (residue j) /\ Forall viewStable (spawned j).
Proof.
  unfold jumpTo. destruct (negb _ || negb _).
  - destruct v; cbn;
      (split; [intros ans w'; repeat split; reflexivity | constructor]).
  - open_world w. destruct nav; cbn; split.
    + intros ans w'. settle ans w'; repeat split; reflexivity.
    + apply Forall_cons; [|apply Forall_nil].
      intros ans w'. settle ans w'; repeat split; reflexivity.
    + intros ans w'. settle ans w'; repeat split; reflexivity.
    + apply Forall_cons; [|apply Forall_nil].
      intros ans w'. settle ans w'; repeat split; reflexivity.
Qed.

(** X13: the map shows the entry under the cursor: if every history entry
    has valid coordinates and the entry at [historyIndex] carries the
    current location name and map centre, the same holds after [handleBack],
    after [handleForward] and after a fresh [jumpTo] from any render whose
    entries are valid, and the completion of what these leave pending
    changes none of the four; the initial state satisfies it. *)
Theorem view_follows_cursor (v : Variant) (w : World) :
  viewInv (app w) ->
  viewInv (app (world (runApp (handleBack v (app w)) w)))
  /\ viewInv (app (world (runApp (handleForward v (app w)) w)))
  /\ (forall r n la lo,
        Forall (fun p => validEntry p = true) (navHistory r) ->
        let j := runApp (jumpTo v r n la lo false) w in
        viewInv (app (world j))
        /\ viewStable (residue j) /\ Forall viewStable (spawned j))
  /\ (forall now, viewInv (initialApp now)).
Proof.
  intros I. pose proof I as [V S].
  destruct (index_Some _ _ _ S) as [R _].
  split; [|split; [|split]].
  - unfold handleBack. destruct (historyIndex (app w) >? 0) eqn:G.
    + apply Z.gtb_lt in G. apply traverse_view; [exact I | lia].
    + exact I.
  - unfold handleForward. destruct (historyIndex (app w) <? _) eqn:G.
    + apply Z.ltb_lt in G. apply traverse_view; [exact I | lia].
    + exact I.
  - intros r n la lo Vr. cbv zeta.
    split; [|apply jumpTo_viewStable].
    destruct (isValidCoord (VNum la) && isValidCoord (VNum lo)) eqn:E.
    + pose proof E as E'. apply andb_prop in E. destruct E as [Va Vo].
      destruct (jumpTo_fresh v r n la lo w Va Vo) as [F1 F2].
      unfold viewInv. rewrite F1, F2, index_last. split.
      * apply Forall_app. split; [now apply Forall_slice|].
        constructor; [exact E' | constructor].
      * unfold jumpTo. rewrite Va, Vo. open_world w. reflexivity.
    + unfold jumpTo. rewrite <- negb_andb, E. destruct v; exact I.
  - intros now. split; [|reflexivity].
    repeat constructor.
Qed.

Lemma view_follows_cursor_witness :
  viewInv (app (world (runApp (handleBack AppTsx (app w0)) w0))).
Proof.
  refine (proj1 (view_follows_cursor AppTsx w0 _)).
  split; [repeat constructor | reflexivity].
Defined.

Lemma handle_seen (X : Type) (op : AppOp X) (w : World) :
  (List.length (seenHistory (app w)) <= 21)%nat ->
  (List.length (seenHistory (app (snd (handle op w)))) <= 21)%nat.
Proof.
  intros H. destruct op; try exact H.
  - destruct wr; try (open_world w; exact H).
    cbn. rewrite seenHistory_push_length. lia.
  - open_world w. exact H.
Qed.

Lemma run_seen (A : Type) (m : P A) :
  forall w, (List.length (seenHistory (app w)) <= 21)%nat ->
            (List.length (seenHistory (app (world (runApp m w)))) <= 21)%nat.
Proof.
  unfold runApp.
  induction m as [A a|A e|A X op k IH|A X op k IH|A p IHp k IHk]; intros w H; cbn; auto.
  pose proof (handle_seen X op w H) as H1.
  destruct (handle op w) as [x w1]. cbn in *. auto.
Qed.

(** X14: the list of seen places starts with 2 names and no function of the
    component ever makes it longer than 21: a push keeps the last 20 names
    and appends the new one, which ends up last. *)
Theorem seenHistory_never_exceeds_21 :
  (forall now, List.length (seenHistory (initialApp now)) = 2%nat)
  /\ (forall (A : Type) (m : P A) (w : World),
        (List.length (seenHistory (app w)) <= 21)%nat ->
        (List.length (seenHistory (app (world (runApp m w)))) <= 21)%nat)
  /\ (forall (A : Type) (m : P A) ans (w : World),
        (List.length (seenHistory (app w)) <= 21)%nat ->
        (List.length (seenHistory (app (world (resumeApp m ans w)))) <= 21)%nat)
  /\ (forall n s,
        List.length (seenHistory (apply_write (SetSeenHistory_push n) s))
        = S (Nat.min (List.length (seenHistory s)) 20)
        /\ last (seenHistory (apply_write (SetSeenHistory_push n) s)) "" = n).
Proof.
  split; [reflexivity|]. split; [exact run_seen|]. split.
  - intros A m ans w H. unfold resumeApp, resume.
    destruct m; cbn; auto. now apply run_seen.
  - intros n s. split; [apply seenHistory_push_length|].
    destruct s. cbn. apply last_last.
Qed.

Lemma seenHistory_never_exceeds_21_witness :
  (List.length
     (seenHistory (app (world (runApp (handleFeelingLucky AppTsx (app w0)) w0))))
   <= 21)%nat.
Proof.
  refine (proj1 (proj2 seenHistory_never_exceeds_21) unit _ w0 _).
  cbn. lia.
Defined.

(** X15: the home button carries no busy guard: when geolocation is
    unsupported or fails it always starts a transition to Vashon Island
    (whose fixed coordinates pass validation), and a reported position
    starts one to "Your Location" exactly when both coordinates pass
    validation, otherwise nothing happens. *)
Theorem return_home (v : Variant) (r : AppState) (w : World) :
  (forall g, g = GeoUnsupported \/ g = GeoError ->
             let a := runApp (handleReturnHome v r g) w in
             currentLocationName (app (world a)) = "Vashon Island"
             /\ mapCenter (app (world a)) = (vashonLat, vashonLng)
             /\ navHistory (app (world a))
                = slice (navHistory r) 0 (Some (historyIndex r + 1))
                  ++ [{| name := "Vashon Island"; lat := vashonLat; lng := vashonLng |}]
             /\ isLoading (app (world a)) = true
             /\ In (EvDispatch (GetLocationSummary "Vashon Island")) (trace a))
  /\ (forall la lo,
        let a := runApp (handleReturnHome v r (GeoPosition la lo)) w in
        if isValidCoord (VNum la) && isValidCoord (VNum lo) then
          currentLocationName (app (world a)) = "Your Location"
          /\ mapCenter (app (world a)) = (la, lo)
          /\ navHistory (app (world a))
             = slice (navHistory r) 0 (Some (historyIndex r + 1))
               ++ [{| name := "Your Location"; lat := la; lng := lo |}]
        else world a = w /\ quiet (trace a) = true).
Proof.
  split.
  - assert (Va : isValidCoord (VNum vashonLat) = true) by reflexivity.
    assert (Vo : isValidCoord (VNum vashonLng) = true) by reflexivity.
    intros g [-> | ->]; cbv zeta; unfold handleReturnHome, jumpTo;
      rewrite Va, Vo; open_world w; cbn; repeat split; auto 30.
  - intros la lo. cbv zeta. unfold handleReturnHome.
    destruct (isValidCoord (VNum la) && isValidCoord (VNum lo)) eqn:E.
    + apply andb_prop in E. destruct E as [Va Vo].
      unfold jumpTo. rewrite Va, Vo. open_world w. cbn. repeat split; reflexivity.
    + unfold jumpTo. rewrite <- negb_andb, E. destruct v; cbn; split; reflexivity.
Qed.

Lemma return_home_witness :
  currentLocationName
    (app (world (runApp (handleReturnHome AppTsx (busyAt 0) GeoError)
                        (mkWorld (busyAt 0) 0 true))))
  = "Vashon Island".
Proof.
  exact (proj1 (proj1 (return_home AppTsx (busyAt 0) (mkWorld (busyAt 0) 0 true))
                  GeoError (or_intror eq_refl))).
Defined.



(* --------------------------------------------------------------------- *)
(** *** The gateway's methods *)

Section RELABEL.
Variables (Sy Sy' As : Type -> Type) (World : Type).
Variable h : forall X, Sy X -> World -> X * World.
Variable h' : forall X, Sy' X -> World -> X * World.
Variable f : forall X, Sy X -> Sy' X.
Hypothesis Hf : forall X (op : Sy X) w, h' _ (f _ op) w = h _ op w.

Lemma run_relabel (A : Type) (m : Prog Sy As A) :
  forall w, world (run h' (relabel f m) w) = world (run h m w).
Proof.
  induction m as [A a|A e|A X op k IH|A X op k IH|A p IHp k IHk]; intros w; cbn;
    try reflexivity.
  - rewrite Hf. destruct (h _ op w) as [x w1]. cbn. apply IH.
  - rewrite IHp. apply IHk.
Qed.

Lemma exec_relabel (A : Type) (m : Prog Sy As A) ans :
  forall n w,
    result (exec h' (relabel f m) ans n w) = result (exec h m ans n w)
    /\ final (exec h' (relabel f m) ans n w) = final (exec h m ans n w)
    /\ awaits (exec h' (relabel f m) ans n w) = awaits (exec h m ans n w).
Proof.
  induction m as [A a|A e|A X op k IH|A X op k IH|A p IHp k IHk]; intros n w; cbn;
    try (repeat split; reflexivity).
  - rewrite Hf. destruct (h _ op w) as [x w1]. cbn. apply IH.
  - apply IH.
  - rewrite run_relabel. apply IHk.
Qed.
End RELABEL.

Section LOOPE.
Variable As : Type -> Type.
Variable setTimeout : Z -> As unit.
Variables X T : Type.
Variable op : As X.
Variable f : X -> settled T.
Variable fn : Prog SvcOp As T.
Hypothesis Hfn : awaitsOnce op f fn.
Variables maxRetries baseDelay : Z.
Variable ans : nat -> forall X, As X -> settled X.

Lemma retryLoop_decides (fuel : nat) :
  forall (attempt : Z) (lastError : error) (n : nat) (w : Randoms),
    Z.of_nat fuel = maxRetries + 1 - attempt ->
    (0 < fuel)%nat ->
    let d := execSvc (retryLoop setTimeout fn maxRetries baseDelay fuel
                                attempt lastError) ans n w in
    exists k : nat,
      (k < fuel)%nat
      /\ events d = retryTrace setTimeout op baseDelay k attempt w
      /\ result d = sbind f (ans (n + 2 * k)%nat X op)
      /\ (forall i, (i < k)%nat ->
                    exists e, sbind f (ans (n + 2 * i)%nat X op) = Rejected e
                              /\ retryable e = true)
      /\ match sbind f (ans (n + 2 * k)%nat X op) with
         | Fulfilled _ => True
         | Rejected e => retryable e = false \/ S k = fuel
         end
      /\ awaits d = (n + 2 * k + 1)%nat
      /\ final d = skipn k w.
Proof.
  induction fuel as [|fuel' IH]; intros attempt lastError n w Hf Hpos; [lia|].
  cbv zeta. unfold execSvc. cbn [retryLoop].
  assert (Hle : (attempt <=? maxRetries) = true) by (apply Z.leb_le; lia).
  rewrite Hle, exec_try_catch.
  pose proof (Hfn ans n w) as E. unfold execSvc in E. rewrite E. cbn.
  destruct (sbind f (ans n X op)) as [x|e] eqn:A0; cbn.
  - exists 0%nat. rewrite Nat.add_0_r, A0. cbn.
    repeat split; auto; try lia.
  - fold (retryable e).
    destruct (retryable e && (attempt <? maxRetries)) eqn:R; cbn.
    + apply andb_prop in R. destruct R as [R1 R2]. apply Z.ltb_lt in R2.
      destruct (IH (attempt + 1) e (S (S n)) (tl w))
        as (k & K1 & K2 & K3 & K4 & K5 & K6 & K7); [lia | lia |].
      unfold execSvc in *.
      exists (S k).
      replace (n + 2 * S k)%nat with (S (S n) + 2 * k)%nat by lia.
      rewrite K2, K3, K6. cbn [retryTrace]. rewrite K7.
      split; [lia|]. split; [reflexivity|]. split; [reflexivity|].
      split; [|split; [|split; [lia|]]].
      * intros [|i] Hi.
        -- exists e. rewrite Nat.add_0_r. auto.
        -- replace (n + 2 * S i)%nat with (S (S n) + 2 * i)%nat by lia.
           apply K4. lia.
      * destruct (sbind f (ans (S (S n) + 2 * k)%nat X op)); [exact I|].
        destruct K5 as [K5|K5]; [now left | right; lia].
      * destruct w; [now destruct k|reflexivity].
    + exists 0%nat. rewrite Nat.add_0_r, A0. cbn.
      split; [lia|]. split; [reflexivity|]. split; [reflexivity|].
      split; [intros i Hi; lia|]. split; [|split; [lia|reflexivity]].
      apply andb_false_iff in R. destruct R as [R|R]; [now left|].
      right. apply Z.ltb_ge in R. lia.
Qed.

(** [try { return await withRetry(fn) } catch { return fallback }] *)
Lemma guarded_retry (fallback : T) (n : nat) (w : Randoms) :
  0 <= maxRetries ->
  exists k : nat,
    (Z.of_nat k <= maxRetries)
    /\ result (execSvc (try_catch (withRetry setTimeout fn maxRetries baseDelay)
                          (fun _ => Ret fallback)) ans n w)
       = Fulfilled (orElse fallback (sbind f (ans (n + 2 * k)%nat X op)))
    /\ (forall i, (i < k)%nat ->
                  exists e, sbind f (ans (n + 2 * i)%nat X op) = Rejected e
                            /\ retryable e = true).
Proof.
  intros Hm. unfold withRetry, execSvc. rewrite exec_try_catch. cbv zeta.
  destruct (retryLoop_decides (Z.to_nat (maxRetries + 1)) 0 ErrUndefined n w)
    as (k & K1 & _ & K3 & K4 & _ & _ & _); [lia | lia |].
  unfold execSvc in *. exists k. split; [lia|]. split; [|exact K4].
  destruct (exec handleSvc _ ans n w) as [res fi ev aw].
  cbn in K3 |- *. subst res.
  destruct (sbind f (ans (n + 2 * k)%nat X op)); reflexivity.
Qed.

End LOOPE.

Lemma awaitsOnce_parse (parse : forall T : Type, string -> settled T)
      (T : Type) (op : Genai GenResponse) (g : GenResponse -> string) :
  awaitsOnce op (fun resp => parse T (g resp))
    (bind (awaitOp op) (fun response => parseJSON parse (g response))).
Proof.
  intros ans n w. unfold execSvc, parseJSON. cbn.
  destruct (ans n GenResponse op) as [resp|e]; cbn; [|reflexivity].
  destruct (parse T (g resp)); reflexivity.
Qed.

Lemma awaitsOnce_ret (T : Type) (op : Genai GenResponse) (g : GenResponse -> T) :
  awaitsOnce op (fun resp => Fulfilled (g resp))
    (bind (awaitOp op) (fun response => Ret (g response))).
Proof.
  intros ans n w. unfold execSvc. cbn.
  destruct (ans n GenResponse op); reflexivity.
Qed.

(** X17: [geocode], [reverseGeocode] and [getDynamicCoolLocation] never
    reject: after at most five requests each is fulfilled with what
    [JSON.parse] makes of the deciding response (of the text ["null"] when
    the response has no text), and with [null] when that request failed or
    its text did not parse. *)
Theorem lookups_never_reject (parse : forall T : Type, string -> settled T)
        (ans : nat -> forall X, Genai X -> settled X) (k : nat) (rnd : Randoms) :
  (forall query,
      exists i, (i <= 4)%nat
        /\ result (execSvc (geocode parse query) ans k rnd)
           = Fulfilled
               (orElse None
                  (sbind (fun resp => parse _ (jsonOf "null" resp))
                     (ans (k + 2 * i)%nat _
                        (Generate flash (GeocodePrompt query) (JsonSchema false))))))
  /\ (forall la lo,
        exists i, (i <= 4)%nat
          /\ result (execSvc (reverseGeocode parse la lo) ans k rnd)
             = Fulfilled
                 (orElse None
                    (sbind (fun resp => parse _ (jsonOf "null" resp))
                       (ans (k + 2 * i)%nat _
                          (Generate flash (ReverseGeocodePrompt la lo)
                             (JsonSchema false))))))
  /\ (forall exclude,
        exists i, (i <= 4)%nat
          /\ result (execSvc (getDynamicCoolLocation parse exclude) ans k rnd)
             = Fulfilled
                 (orElse None
                    (sbind (fun resp => parse _ (jsonOf "null" resp))
                       (ans (k + 2 * i)%nat _
                          (Generate flash (CoolLocationPrompt (exclusionText exclude))
                             (JsonSchema false)))))).
Proof.
  split; [|split].
  - intros query.
    destruct (guarded_retry _ Sleep _ _ _ _ _
                (awaitsOnce_parse parse (option GeocodeResponse)
                   (Generate flash (GeocodePrompt query) (JsonSchema false))
                   (jsonOf "null"))
                4 3000 ans None k rnd) as (i & I1 & I2 & _); [lia|].
    exists i. split; [lia | exact I2].
  - intros la lo.
    destruct (guarded_retry _ Sleep _ _ _ _ _
                (awaitsOnce_parse parse (option NavLocation)
                   (Generate flash (ReverseGeocodePrompt la lo) (JsonSchema false))
                   (jsonOf "null"))
                4 3000 ans None k rnd) as (i & I1 & I2 & _); [lia|].
    exists i. split; [lia | exact I2].
  - intros exclude.
    destruct (guarded_retry _ Sleep _ _ _ _ _
                (awaitsOnce_parse parse (option NavLocation)
                   (Generate flash (CoolLocationPrompt (exclusionText exclude))
                      (JsonSchema false))
                   (jsonOf "null"))
                4 3000 ans None k rnd) as (i & I1 & I2 & _); [lia|].
    exists i. split; [lia | exact I2].
Qed.

Lemma logging_handle (X : Type) (op : SvcOp X) (w : Randoms) :
  @handleLog X (@logging X op) w = @handleSvc X op w.
Proof. destruct op; reflexivity. Qed.

(** X18: [getVisualKeywords] and [getPertinentQuestions] never reject: each
    is fulfilled with the parsed list of the deciding response, and when
    that request failed or did not parse, with the single placeholder
    landmark (after logging the failure) and with the two fixed questions
    respectively. *)
Theorem list_methods_fall_back (parse : forall T : Type, string -> settled T)
        (ans : nat -> forall X, Genai X -> settled X) (k : nat) (rnd : Randoms) :
  (forall placeName exclude,
      let op := Generate flash (VisualPrompt placeName (exclusionPrompt exclude))
                         (JsonSchema true) in
      let d := exec (@handleLog) (getVisualKeywords parse placeName exclude) ans k rnd in
      exists i, (i <= 4)%nat
        /\ result d
           = Fulfilled
               (orElse [placeholderLandmark]
                  (sbind (fun resp => parse _ (jsonOf "[]" resp))
                         (ans (k + 2 * i)%nat _ op)))
        /\ (forall e, sbind (fun resp => parse (list VisualLandmark) (jsonOf "[]" resp))
                            (ans (k + 2 * i)%nat _ op) = Rejected e ->
                      In (EvSync (ConsoleError "Failed to gather web photos"))
                         (events d)))
  /\ (forall placeName count,
        exists i, (i <= 4)%nat
          /\ result (execSvc (getPertinentQuestions parse placeName count) ans k rnd)
             = Fulfilled
                 (orElse fallbackQuestions
                    (sbind (fun resp => parse _ (jsonOf "[]" resp))
                       (ans (k + 2 * i)%nat _
                          (Generate flash (QuestionsPrompt count placeName)
                             (JsonSchema false)))))).
Proof.
  split.
  - intros placeName exclude. cbv zeta. unfold getVisualKeywords, withRetry.
    rewrite exec_try_catch. cbv zeta.
    destruct (exec_relabel _ _ _ _ (@handleSvc) (@handleLog) (@logging) logging_handle
                (list VisualLandmark)
                (retryLoop Sleep
                   (bind (awaitOp (Generate flash
                                     (VisualPrompt placeName (exclusionPrompt exclude))
                                     (JsonSchema true)))
                         (fun response => parseJSON parse (or_str (gr_text response) "[]")))
                   4 3000 (Z.to_nat (4 + 1)) 0 ErrUndefined) ans k rnd)
      as (R1 & R2 & R3).
    destruct (retryLoop_decides _ Sleep _ _ _ _ _
                (awaitsOnce_parse parse (list VisualLandmark)
                   (Generate flash (VisualPrompt placeName (exclusionPrompt exclude))
                      (JsonSchema true))
                   (jsonOf "[]"))
                4 3000 ans (Z.to_nat (4 + 1)) 0 ErrUndefined k rnd)
      as (i & K1 & _ & K3 & _ & _ & _ & _); [reflexivity | cbn; lia |].
    unfold execSvc, jsonOf in *. rewrite <- R1 in K3.
    exists i. split; [cbn in K1; lia|].
    destruct (exec (@handleLog) _ ans k rnd) as [res fi ev aw].
    cbn in K3 |- *. subst res.
    destruct (sbind _ (ans (k + 2 * i)%nat GenResponse _)) as [x|e]; cbn.
    + split; [reflexivity | discriminate].
    + split; [reflexivity|]. intros _ _. apply in_or_app. right. left. reflexivity.
  - intros placeName count.
    destruct (guarded_retry _ Sleep _ _ _ _ _
                (awaitsOnce_parse parse (list string)
                   (Generate flash (QuestionsPrompt count placeName) (JsonSchema false))
                   (jsonOf "[]"))
                4 3000 ans fallbackQuestions k rnd) as (i & I1 & I2 & _); [lia|].
    exists i. split; [lia | exact I2].
Qed.

Lemma list_methods_fall_back_witness :
  In (EvSync (ConsoleError "Failed to gather web photos"))
     (events (exec (@handleLog) (getVisualKeywords noParse "Petra" [])
                (genaiDown ErrUndefined) 0 [])).
Proof.
  destruct (proj1 (list_methods_fall_back noParse (genaiDown ErrUndefined) 0 [])
              "Petra" []) as (i & _ & _ & H).
  exact (H ErrUndefined eq_refl).
Defined.



(** X20: [queryLocation] does not swallow failures: after at most five
    requests it is fulfilled with the answer built from the deciding
    response, or rejected with the error of the deciding request; requests
    before that one failed with a retryable error, and a rejection means the
    error is not retryable or all five requests were used. *)
Theorem queryLocation_propagates
        (ans : nat -> forall X, Genai X -> settled X) (k : nat) (rnd : Randoms)
        (prompt : string) (userLocation : option UserLocation) :
  let op := Generate "gemini-2.5-flash" (FreeForm prompt) (Grounded userLocation) in
  let d := execSvc (queryLocation prompt userLocation) ans k rnd in
  exists i, (i <= 4)%nat
    /\ result d = match ans (k + 2 * i)%nat _ op with
                  | Fulfilled resp => Fulfilled (answerOf resp)
                  | Rejected e => Rejected e
                  end
    /\ (forall j, (j < i)%nat ->
                  exists e, ans (k + 2 * j)%nat _ op = Rejected e
                            /\ retryable e = true)
    /\ (forall e, ans (k + 2 * i)%nat _ op = Rejected e ->
                  retryable e = false \/ i = 4%nat).
Proof.
  cbv zeta. unfold queryLocation, withRetry, execSvc.
  rewrite exec_try_catch. cbv zeta.
  destruct (retryLoop_decides _ Sleep _ _ _ _ _
              (awaitsOnce_ret QueryResponse
                 (Generate "gemini-2.5-flash" (FreeForm prompt) (Grounded userLocation))
                 answerOf)
              4 3000 ans (Z.to_nat (4 + 1)) 0 ErrUndefined k rnd)
    as (i & K1 & _ & K3 & K4 & K5 & _ & _); [reflexivity | cbn; lia |].
  unfold execSvc in *. exists i. split; [cbn in K1; lia|].
  destruct (exec handleSvc _ ans k rnd) as [res fi ev aw].
  cbn in K3 |- *. subst res. split; [|split].
  - destruct (ans (k + 2 * i)%nat GenResponse _); reflexivity.
  - intros j Hj. destruct (K4 j Hj) as (e & E1 & E2).
    destruct (ans (k + 2 * j)%nat GenResponse _) as [x|e0]; cbn in E1;
      [discriminate|].
    injection E1 as ->. exists e. split; [reflexivity | exact E2].
  - intros e E. rewrite E in K5. cbn in K5, K1.
    destruct K5 as [K5|K5]; [now left | right; lia].
Qed.

Lemma queryLocation_propagates_witness :
  exists i, (i <= 4)%nat
    /\ result (execSvc (queryLocation "Where am I?" None)
                 (genaiDown (ErrObj (Some "Bad request") (Some 400))) 0 [])
       = Rejected (ErrObj (Some "Bad request") (Some 400)).
Proof.
  destruct (queryLocation_propagates
              (genaiDown (ErrObj (Some "Bad request") (Some 400))) 0 []
              "Where am I?" None) as (i & I1 & I2 & _).
  exists i. split; [exact I1 | exact I2].
Defined.

Lemma collectChunks_acc (chunks : list GroundingChunk) :
  forall srcs locs,
    fold_left
      (fun acc chunk =>
         let '(srcs, locs) := acc in
         match maps chunk, web chunk with
         | Some m, _ =>
             (srcs ++ [{| gs_title := c_title m; gs_uri := c_uri m |}],
              locs ++ [{| title := c_title m; uri := c_uri m;
                          lr_latitude := None; lr_longitude := None |}])
         | None, Some w =>
             (srcs ++ [{| gs_title := c_title w; gs_uri := c_uri w |}], locs)
         | None, None => (srcs, locs)
         end)
      chunks (srcs, locs)
    = (srcs ++ flat_map (fun c => match maps c, web c with
                                  | Some m, _ => [sourceOfRef m]
                                  | None, Some w => [sourceOfRef w]
                                  | None, None => []
                                  end) chunks,
       locs ++ flat_map (fun c => match maps c with
                                  | Some m => [locationOfRef m]
                                  | None => []
                                  end) chunks).
Proof.
  induction chunks as [|c chunks IH]; intros srcs locs; cbn [fold_left flat_map].
  - now rewrite !app_nil_r.
  - destruct (maps c) as [m|]; [|destruct (web c) as [w|]]; rewrite IH;
      rewrite <- ?app_assoc; reflexivity.
Qed.

(** X21: the grounding chunks of an answer are collected in order: a chunk
    with a maps reference yields a source and a location result, a chunk
    with only a web reference yields a source, any other chunk nothing;
    hence every location result is also listed among the sources, and there
    are no more location results than sources and no more sources than
    chunks. *)
Theorem grounding_chunks (chunks : list GroundingChunk) :
  let srcs := fst (collectChunks chunks) in
  let locs := snd (collectChunks chunks) in
  srcs = flat_map (fun c => match maps c, web c with
                            | Some m, _ => [sourceOfRef m]
                            | None, Some w => [sourceOfRef w]
                            | None, None => []
                            end) chunks
  /\ locs = flat_map (fun c => match maps c with
                               | Some m => [locationOfRef m]
                               | None => []
                               end) chunks
  /\ (forall loc, In loc locs ->
                  In {| gs_title := title loc; gs_uri := uri loc |} srcs)
  /\ (List.length locs <= List.length srcs <= List.length chunks)%nat.
Proof.
  cbv zeta. unfold collectChunks. rewrite collectChunks_acc. cbn [fst snd Datatypes.app].
  split; [reflexivity|]. split; [reflexivity|]. split.
  - intros loc H. apply in_flat_map in H. destruct H as (c & Hc & H).
    apply in_flat_map. exists c. split; [exact Hc|].
    destruct (maps c) as [m|]; [|contradiction].
    destruct H as [<-|[]]. left. reflexivity.
  - induction chunks as [|c chunks IH]; [cbn; lia|].
    cbn [flat_map List.length]. rewrite !length_app.
    destruct (maps c) as [m|]; [|destruct (web c) as [w|]]; cbn [List.length]; lia.
Qed.

Lemma grounding_chunks_witness :
  let m := {| c_title := "Petra"; c_uri := "maps://petra" |} in
  let chunks := [{| maps := Some m; web := None |}] in
  In {| gs_title := "Petra"; gs_uri := "maps://petra" |} (fst (collectChunks chunks)).
Proof.
  cbv zeta.
  refine (proj1 (proj2 (proj2 (grounding_chunks
            [{| maps := Some {| c_title := "Petra"; c_uri := "maps://petra" |};
                web := None |}])))
            (locationOfRef {| c_title := "Petra"; c_uri := "maps://petra" |}) _).
  left. reflexivity.
Defined.

(** X22: the answer built from a response always has a non-empty text (the
    fixed apology when the response has none), has no sources and no
    location results when the response has no grounding chunks, and its
    location results never carry coordinates, so that none of them passes
    the filter under which the map draws a marker. *)
Theorem answer_markers_hidden (resp : GenResponse) :
  text (answerOf resp) <> ""
  /\ (gr_text resp = None \/ gr_text resp = Some "" ->
      text (answerOf resp) = "I couldn't find any information.")
  /\ (gr_chunks resp = None ->
      q_sources (answerOf resp) = [] /\ q_locationData (answerOf resp) = [])
  /\ Forall (fun loc => lr_latitude loc = None /\ lr_longitude loc = None)
            (q_locationData (answerOf resp))
  /\ visibleMarkers (q_locationData (answerOf resp)) = [].
Proof.
  unfold answerOf.
  destruct (collectChunks _) as [srcs locs] eqn:E. cbn [text q_sources q_locationData].
  assert (L : locs = flat_map (fun c => match maps c with
                                        | Some m => [locationOfRef m]
                                        | None => []
                                        end)
                       match gr_chunks resp with Some l => l | None => [] end).
  { unfold collectChunks in E. rewrite collectChunks_acc in E.
    cbn [Datatypes.app] in E. now injection E as _ <-. }
  assert (F : Forall (fun loc => lr_latitude loc = None /\ lr_longitude loc = None) locs).
  { subst locs. apply Forall_forall. intros loc H.
    apply in_flat_map in H. destruct H as (c & _ & H).
    destruct (maps c); [|contradiction]. destruct H as [<-|[]]. split; reflexivity. }
  split; [|split; [|split; [|split]]].
  - destruct (gr_text resp) as [[|c s]|]; discriminate.
  - intros [H|H]; rewrite H; reflexivity.
  - intros H. rewrite H in E. cbn in E. injection E as <- <-. split; reflexivity.
  - exact F.
  - unfold visibleMarkers. clear L E. induction locs as [|loc locs IH]; [reflexivity|].
    inversion F as [|? ? [H1 H2] F']; subst. cbn [filter]. rewrite H1, H2. cbn. auto.
Qed.

Lemma answer_markers_hidden_witness :
  text (answerOf {| gr_text := None; gr_chunks := None |})
  = "I couldn't find any information.".
Proof.
  exact (proj1 (proj2 (answer_markers_hidden {| gr_text := None; gr_chunks := None |}))
           (or_introl eq_refl)).
Defined.

Lemma existsb_eqb_In (x : string) (l : list string) :
  existsb (String.eqb x) l = true <-> In x l.
Proof.
  rewrite existsb_exists. split.
  - intros (y & H & E). apply String.eqb_eq in E. now subst.
  - intros H. exists x. split; [exact H | apply String.eqb_refl].
Qed.

Lemma dedupe_acc (l : list string) :
  forall acc,
    NoDup acc ->
    let out := fold_left (fun acc x => if existsb (String.eqb x) acc then acc
                                       else acc ++ [x]) l acc in
    NoDup out
    /\ (forall x, In x out <-> In x acc \/ In x l)
    /\ (NoDup (acc ++ l) -> out = acc ++ l).
Proof.
  induction l as [|a l IH]; intros acc N; cbn [fold_left].
  - split; [exact N|]. split; [intros x; cbn; tauto|]. intros _. now rewrite app_nil_r.
  - destruct (existsb (String.eqb a) acc) eqn:E.
    + apply existsb_eqb_In in E. destruct (IH acc N) as (I1 & I2 & I3).
      split; [exact I1|]. split.
      * intros x. rewrite I2. cbn. split; [tauto|].
        intros [H|[<-|H]]; tauto.
      * intros D. exfalso. apply NoDup_remove_2 in D. apply D.
        apply in_or_app. now left.
    + assert (Na : ~ In a acc)
        by (intros H; apply existsb_eqb_In in H; congruence).
      assert (N' : NoDup (acc ++ [a])).
      { apply NoDup_app; [exact N | repeat constructor; auto |].
        intros x Hx [<-|[]]. contradiction. }
      destruct (IH (acc ++ [a]) N') as (I1 & I2 & I3).
      split; [exact I1|]. split.
      * intros x. rewrite I2, in_app_iff. cbn. tauto.
      * intros D. rewrite <- app_assoc in I3. cbn in I3. now apply I3.
Qed.

(** X23: the exclusion list sent with a random-location request has no
    duplicates, contains exactly the names passed in and the nine built-in
    landmarks, is the plain concatenation when that has no duplicates, and
    is never empty, so the request always carries the exclusion sentence. *)
Theorem exclusion_list (exclude : list string) :
  NoDup (allExclude exclude)
  /\ (forall x, In x (allExclude exclude) <-> In x exclude \/ In x forbidden)
  /\ (NoDup (exclude ++ forbidden) -> allExclude exclude = exclude ++ forbidden)
  /\ allExclude exclude <> []
  /\ exclusionText exclude
     = (" STRICTLY FORBIDDEN locations: " ++ join (allExclude exclude) ++ ".")%string.
Proof.
  destruct (dedupe_acc (exclude ++ forbidden) [] (NoDup_nil _)) as (D1 & D2 & D3).
  cbv zeta in *. fold (dedupe (exclude ++ forbidden)) in *.
  fold (allExclude exclude) in *.
  assert (NE : allExclude exclude <> []).
  { intros H. assert (P : In "Petra" (allExclude exclude)).
    { apply D2. right. apply in_or_app. right. left. reflexivity. }
    rewrite H in P. contradiction. }
  split; [exact D1|]. split; [|split; [exact D3|split; [exact NE|]]].
  - intros x. rewrite D2, in_app_iff. cbn [In]. tauto.
  - unfold exclusionText. destruct (allExclude exclude); [contradiction | reflexivity].
Qed.

Lemma exclusion_list_witness :
  allExclude ["Vashon Island"] = "Vashon Island" :: forbidden.
Proof.
  refine (proj1 (proj2 (proj2 (exclusion_list ["Vashon Island"]))) _).
  repeat (constructor; [cbn; intuition discriminate|]). constructor.
Defined.

Lemma nth_in_range (w : Randoms) (i : nat) :
  Forall (fun j => 0 <= j < 3000) w -> 0 <= nth i w 0 < 3000.
Proof.
  intros F. destruct (Nat.lt_ge_cases i (List.length w)) as [H|H].
  - rewrite Forall_forall in F. apply F. now apply nth_In.
  - rewrite nth_overflow by exact H. lia.
Qed.

Lemma nth_error_map_seq {B} (f : nat -> B) (k : nat) :
  forall s i t, nth_error (map f (seq s k)) i = Some t ->
                (i < k)%nat /\ t = f (s + i)%nat.
Proof.
  induction k as [|k IH]; intros s i t H; cbn [seq map] in H.
  - destruct i; discriminate H.
  - destruct i as [|i]; cbn [nth_error] in H.
    + injection H as <-. rewrite Nat.add_0_r. split; [lia | reflexivity].
    + destruct (IH _ _ _ H) as [H1 H2]. split; [lia|].
      rewrite H2. f_equal. lia.
Qed.

(** X24: with the default parameters and a jitter below 3000 ms, the wait
    before retry [i] lies in [[3000 * 3^i, 3000 * 3^i + 3000)], there are at
    most four waits, and a call waits less than 132 seconds in total before
    it succeeds or gives up. *)
Theorem retry_waits_bounded (T : Type)
        (ans : nat -> forall X, RetryEff T X -> settled X) (w : Randoms) :
  Forall (fun j => 0 <= j < 3000) w ->
  let d := execSvc (retrying T 4 3000) ans 0 w in
  (forall i t, nth_error (timeouts (events d)) i = Some t ->
               3000 * 3 ^ Z.of_nat i <= t < 3000 * 3 ^ Z.of_nat i + 3000)
  /\ (List.length (timeouts (events d)) <= 4)%nat
  /\ 0 <= totalWait (events d) < 132000.
Proof.
  intros F. cbv zeta. unfold retrying, withRetry.
  destruct (retryLoop_exec _ Timeout _ _ _ _ _ (singleAwait_invoke T)
              4 3000 ans (Z.to_nat (4 + 1)) 0 ErrUndefined 0%nat w)
    as (k & K1 & K2 & _); [reflexivity | cbn; lia |].
  unfold totalWait. rewrite K2, timeouts_retryTrace.
  pose proof (nth_in_range w 0 F) as R0. pose proof (nth_in_range w 1 F) as R1.
  pose proof (nth_in_range w 2 F) as R2. pose proof (nth_in_range w 3 F) as R3.
  assert (P0 : 3 ^ (0 + Z.of_nat 0) = 1) by reflexivity.
  assert (P1 : 3 ^ (0 + Z.of_nat 1) = 3) by reflexivity.
  assert (P2 : 3 ^ (0 + Z.of_nat 2) = 9) by reflexivity.
  assert (P3 : 3 ^ (0 + Z.of_nat 3) = 27) by reflexivity.
  cbn in K1. split; [|split].
  - intros i t H. apply nth_error_map_seq in H. destruct H as [_ ->].
    cbn [Nat.add]. rewrite Z.add_0_l.
    pose proof (nth_in_range w i F). lia.
  - rewrite length_map, length_seq. lia.
  - destruct k as [|[|[|[|[|k]]]]]; [| | | | | lia]; cbn [seq map fold_right];
      rewrite ?P0, ?P1, ?P2, ?P3; lia.
Qed.

Lemma retry_waits_bounded_witness :
  totalWait
    (events (execSvc (retrying nat 4 3000)
               (fun n X op =>
                  match op in RetryEff _ R return settled R with
                  | Invoke => Rejected (ErrObj None (Some 503%Z))
                  | Timeout _ => Fulfilled tt
                  end) 0 [100; 200; 300; 400]))
  < 132000.
Proof.
  refine (proj2 (proj2 (proj2 (retry_waits_bounded nat _ [100; 200; 300; 400] _)))).
  repeat (constructor; [lia|]). constructor.
Defined.
